(** * BeeTrail backend: a shallow embedding of [server.js]

    The Express handlers of [server.js] are embedded as functions over an
    explicit store (the three Mongoose collections), an environment (the
    signing secret, the clock readings, the generated salt and object id) and
    a request.  Every store operation a handler issues is recorded in a log,
    so that "no query runs" is a statement about that log.

    Conventions of the embedding:
    - a JavaScript number is an exact rational ([Q]); [NaN] is [None];
      rounding and the infinities of IEEE doubles are outside the model;
    - a [Date] is its millisecond timestamp ([Z]); [Invalid Date] is [None];
    - a request field is the string rendering of its value (what
      express-validator validates), absent fields are [None]; a body field
      is a JSON string or a JSON number, and the request tells which; other
      JSON values are outside the model;
    - on the hive and crop routes, the fields checked with [check] are taken
      to come in the body alone, and those checked with [query] come in the
      query string; on the registration and login routes the model follows
      [check] to the headers and the query string as well;
    - requests are served one after the other;
    - primitives of the libraries the server calls (validator syntax tests,
      number and date parsing, bcrypt, the JWS signature, MongoDB's spherical
      distance) are parameters of the development, gathered in [Lib]. *)

From Stdlib Require Import List String Ascii ZArith QArith Qround Bool Lia
  Permutation Sorted Qabs DecimalString.
Import ListNotations.

Open Scope string_scope.
Open Scope list_scope.
Open Scope Z_scope.

(** ** JavaScript values *)

#[warnings="-register-all"]
Inductive json : Type :=
| JUndefined
| JNull
| JBool (b : bool)
| JNum (q : Q)
| JStr (s : string)
| JDate (ms : Z)
| JArr (items : list json)
| JObj (fields : list (string * json)).

(** [Invalid Date] is [None]. *)
Definition jsdate := option Z.

Fixpoint assoc {A : Type} (k : string) (l : list (string * A)) : option A :=
  match l with
  | [] => None
  | (k', v) :: l' => if String.eqb k k' then Some v else assoc k l'
  end.

(** Property access [o.k] on a value; [undefined] when absent. *)
Definition get (k : string) (o : json) : json :=
  match o with
  | JObj fields => match assoc k fields with Some v => v | None => JUndefined end
  | _ => JUndefined
  end.

Definition keys (o : json) : list string :=
  match o with
  | JObj fields => map fst fields
  | _ => []
  end.

(** [s.split(c)] for a one-character separator. *)
Fixpoint split_on (c : ascii) (s : string) : list string :=
  match s with
  | EmptyString => [EmptyString]
  | String a rest =>
      if Ascii.eqb a c then EmptyString :: split_on c rest
      else match split_on c rest with
           | [] => [String a EmptyString]
           | w :: ws => String a w :: ws
           end
  end.

(** Truthiness of a string-or-undefined value. *)
Definition truthy (v : option string) : bool :=
  match v with
  | None => false
  | Some s => negb (String.eqb s "")
  end.

(** [x || d] on numbers: [NaN] and [0] are falsy. *)
Definition num_or (x : option Q) (d : Q) : Q :=
  match x with
  | Some q => if Qeq_bool q 0 then d else q
  | None => d
  end.

Definition int_or (x : option Z) (d : Z) : Z :=
  match x with
  | Some n => if Z.eqb n 0 then d else n
  | None => d
  end.

(** [a >= b] on dates; any comparison with [Invalid Date] is false. *)
Definition date_ge (a b : jsdate) : bool :=
  match a, b with
  | Some x, Some y => Z.leb y x
  | _, _ => false
  end.

(** ** The [ms] time-span strings accepted by [jsonwebtoken]'s [expiresIn] *)

Definition digit_of (a : ascii) : option Z :=
  let n := Z.of_nat (nat_of_ascii a) in
  if andb (Z.leb 48 n) (Z.leb n 57) then Some (n - 48) else None.

Fixpoint read_digits (acc : Z) (s : string) : Z * string :=
  match s with
  | EmptyString => (acc, EmptyString)
  | String a rest =>
      match digit_of a with
      | Some d => read_digits (10 * acc + d) rest
      | None => (acc, s)
      end
  end.

(** Milliseconds denoted by strings such as ["1h"], ["30m"], ["45s"]. *)
Definition ms (s : string) : option Z :=
  match s with
  | EmptyString => None
  | String a _ =>
      match digit_of a with
      | None => None
      | Some _ =>
          let '(n, unit) := read_digits 0 s in
          if String.eqb unit "ms" then Some n
          else if String.eqb unit "s" then Some (n * 1000)
          else if String.eqb unit "m" then Some (n * 60000)
          else if String.eqb unit "h" then Some (n * 3600000)
          else if String.eqb unit "d" then Some (n * 86400000)
          else None
      end
  end.

(** ** The collections *)

Record User : Type := mkUser {
  user_id : string;
  username : string;
  password : string;
  role : string
}.

Record Hive : Type := mkHive {
  hive_id : string;
  hiveId : string;
  datePlaced : Z;
  latitude : Q;
  longitude : Q;
  numColonies : Q;
  dateCreated : Z
}.

Record Location : Type := mkLocation {
  loc_type : string;
  coordinates : list Q
}.

Record Crop : Type := mkCrop {
  crop_id : string;
  name : string;
  floweringStart : Z;
  floweringEnd : Z;
  recommendedHiveDensity : Q;
  location : Location;
  crop_dateCreated : Z
}.

Record Store : Type := mkStore {
  users : list User;
  hives : list Hive;
  crops : list Crop
}.

Definition empty_store : Store := mkStore [] [] [].

(** Documents as they are serialised in a response. *)
Definition hive_json (h : Hive) : json :=
  JObj [("_id", JStr (hive_id h));
        ("hiveId", JStr (hiveId h));
        ("datePlaced", JDate (datePlaced h));
        ("latitude", JNum (latitude h));
        ("longitude", JNum (longitude h));
        ("numColonies", JNum (numColonies h));
        ("dateCreated", JDate (dateCreated h))].

Definition location_json (l : Location) : json :=
  JObj [("type", JStr (loc_type l));
        ("coordinates", JArr (map JNum (coordinates l)))].

Definition crop_json (c : Crop) : json :=
  JObj [("_id", JStr (crop_id c));
        ("name", JStr (name c));
        ("floweringStart", JDate (floweringStart c));
        ("floweringEnd", JDate (floweringEnd c));
        ("recommendedHiveDensity", JNum (recommendedHiveDensity c));
        ("location", location_json (location c));
        ("dateCreated", JDate (crop_dateCreated c))].

(** ** Requests and responses *)

Inductive Route : Type :=
| PostRegister | PostLogin
| PostHives | GetHives
| PostCrops | GetCropsNearby
| GetExportHives | GetExportCrops
| GetSync | GetAdmin.

Record Request : Type := mkRequest {
  route : Route;
  authorization : option string;
  body : list (string * string);
  query : list (string * string);
  (** the other headers, their names in lower case *)
  headers : list (string * string);
  (** the body fields that came as JSON numbers; the others came as strings *)
  numeric : list string
}.

(** What [json2csv] is given: the column names and, per record, the value
    under each column. *)
Record Table : Type := mkTable {
  columns : list string;
  rows : list (list json)
}.

Inductive Payload : Type :=
| Json (j : json)
| Csv (filename : string) (t : Table)
| Html (links : list string)
| Text (s : string).

Record Response : Type := mkResponse {
  status : Z;
  payload : Payload
}.

(** [res.status(n).json(j)] and [res.json(j)]. *)
Definition status_json (n : Z) (j : json) : Response := mkResponse n (Json j).
Definition res_json (j : json) : Response := mkResponse 200 (Json j).

Definition error_body (msg : string) : json := JObj [("error", JStr msg)].

(** ** Store operations

    [DB A] is a computation over the store that may throw ([None]) and that
    appends every operation it sends to the database to a log. *)

Record DateQuery : Type := mkDateQuery {
  gte : option jsdate;
  lte : option jsdate
}.

Inductive db_op : Type :=
| OpUserFindOne (username : string)
| OpUserFindUndefined
| OpUserSave (u : User)
| OpHiveFindOne (hiveId : string)
| OpHiveSave (h : Hive)
| OpHiveFind (q : DateQuery) (skip limit : Z)
| OpHiveCount (q : DateQuery)
| OpHiveFindAll
| OpCropSave (c : Crop)
| OpCropFindNear (center : list Q) (maxDistance : Q) (date : Z)
| OpCropFindAll.

Definition DB (A : Type) : Type :=
  Store -> list db_op -> option A * Store * list db_op.

Definition ret {A : Type} (a : A) : DB A := fun st log => (Some a, st, log).

Definition throw {A : Type} : DB A := fun st log => (None, st, log).

Definition bind {A B : Type} (m : DB A) (k : A -> DB B) : DB B :=
  fun st log =>
    match m st log with
    | (Some a, st', log') => k a st' log'
    | (None, st', log') => (None, st', log')
    end.

Notation "x <- m ;; k" := (bind m (fun x => k))
  (at level 61, m at next level, right associativity).

Definition emit (op : db_op) : DB unit := fun st log => (Some tt, st, log ++ [op]).

Definition read {A : Type} (f : Store -> A) : DB A := fun st log => (Some (f st), st, log).

Definition write (f : Store -> Store) : DB unit := fun st log => (Some tt, f st, log).

Record Outcome : Type := mkOutcome {
  response : Response;
  store : Store;
  ops : list db_op
}.

(** A response sent without touching the store. *)
Definition reply (r : Response) (st : Store) : Outcome := mkOutcome r st [].

(** [try { ... } catch (err) { return res.status(500).json(...) }] *)
Definition try_catch (m : DB Response) (st : Store) : Outcome :=
  match m st [] with
  | (Some r, st', log) => mkOutcome r st' log
  | (None, st', log) => mkOutcome (status_json 500 (error_body "Server error")) st' log
  end.

(** Insertion sort, stable; [before a b] says that [a] may precede [b]. *)
Fixpoint insert_by {A : Type} (before : A -> A -> bool) (x : A) (l : list A) : list A :=
  match l with
  | [] => [x]
  | y :: l' => if before x y then x :: l else y :: insert_by before x l'
  end.

Fixpoint sort_by {A : Type} (before : A -> A -> bool) (l : list A) : list A :=
  match l with
  | [] => []
  | x :: l' => insert_by before x (sort_by before l')
  end.

Definition find_user (name : string) (st : Store) : option User :=
  find (fun u => String.eqb (username u) name) (users st).

Definition find_hive (id : string) (st : Store) : option Hive :=
  find (fun h => String.eqb (hiveId h) id) (hives st).

(** [User.findOne({ username })], the field as the body has it: the schema
    casts it to a string; an undefined username is sent as null and matches
    no user, every user having one. *)
Definition User_findOne (username : option string) : DB (option User) :=
  match username with
  | Some name => _ <- emit (OpUserFindOne name) ;; read (find_user name)
  | None => _ <- emit OpUserFindUndefined ;; ret None
  end.

(** [user.save()]: a document that does not pass the schema is rejected
    before it is sent; the schema declares [username] unique. *)
Definition User_save (doc : option User) : DB unit :=
  match doc with
  | None => throw
  | Some u =>
      _ <- emit (OpUserSave u) ;;
      existing <- read (find_user (username u)) ;;
      match existing with
      | Some _ => throw
      | None => write (fun st => mkStore (users st ++ [u]) (hives st) (crops st))
      end
  end.

(** [Hive.findOne({ hiveId })] *)
Definition Hive_findOne (id : string) : DB (option Hive) :=
  _ <- emit (OpHiveFindOne id) ;; read (find_hive id).

(** [hive.save()]: a document that failed to cast is rejected before it is
    sent; the schema declares [hiveId] unique. *)
Definition Hive_save (doc : option Hive) : DB unit :=
  match doc with
  | None => throw
  | Some h =>
      _ <- emit (OpHiveSave h) ;;
      existing <- read (find_hive (hiveId h)) ;;
      match existing with
      | Some _ => throw
      | None => write (fun st => mkStore (users st) (hives st ++ [h]) (crops st))
      end
  end.

Definition castable (q : DateQuery) : bool :=
  match gte q, lte q with
  | Some None, _ => false
  | _, Some None => false
  | _, _ => true
  end.

(** [{ datePlaced: { $gte, $lte } }], each bound present or not. *)
Definition matches (q : DateQuery) (h : Hive) : bool :=
  andb (match gte q with Some (Some d) => Z.leb d (datePlaced h) | _ => true end)
       (match lte q with Some (Some d) => Z.leb (datePlaced h) d | _ => true end).

(** [{ datePlaced: -1 }]: later dates first; the sort key says nothing of
    two records of equal datePlaced, and [tie] is the order the database
    happens to give them in one query. *)
Definition newer_first (tie : Hive -> Hive -> bool) (a b : Hive) : bool :=
  if Z.eqb (datePlaced a) (datePlaced b) then tie a b
  else Z.ltb (datePlaced b) (datePlaced a).

(** [.limit(n)]: zero is no limit, a negative limit is its absolute value. *)
Definition limit_to {A : Type} (n : Z) (l : list A) : list A :=
  if Z.eqb n 0 then l else firstn (Z.to_nat (Z.abs n)) l.

(** [Hive.find(q).skip(s).limit(n).sort({ datePlaced: -1 })]: the query is
    sorted, then skipped, then limited, whatever the order of the calls; a
    bound that is not a date fails to cast, a negative skip is refused. *)
Definition Hive_find (tie : Hive -> Hive -> bool) (q : DateQuery) (skip limit : Z)
  : DB (list Hive) :=
  if negb (castable q) then throw
  else
    _ <- emit (OpHiveFind q skip limit) ;;
    if Z.ltb skip 0 then throw
    else read (fun st =>
      limit_to limit (skipn (Z.to_nat skip)
        (sort_by (newer_first tie) (filter (matches q) (hives st))))).

(** [Hive.countDocuments(q)] *)
Definition Hive_countDocuments (q : DateQuery) : DB Z :=
  if negb (castable q) then throw
  else
    _ <- emit (OpHiveCount q) ;;
    read (fun st => Z.of_nat (List.length (filter (matches q) (hives st)))).

(** [Hive.find({})] *)
Definition Hive_findAll : DB (list Hive) :=
  _ <- emit OpHiveFindAll ;; read hives.

(** [crop.save()] *)
Definition Crop_save (doc : option Crop) : DB unit :=
  match doc with
  | None => throw
  | Some c =>
      _ <- emit (OpCropSave c) ;;
      write (fun st => mkStore (users st) (hives st) (crops st ++ [c]))
  end.

(** [Crop.find({})] *)
Definition Crop_findAll : DB (list Crop) :=
  _ <- emit OpCropFindAll ;; read crops.

(** All the numbers of an array, or [None] when one of them is [NaN]. *)
Fixpoint numbers (l : list (option Q)) : option (list Q) :=
  match l with
  | [] => Some []
  | None :: _ => None
  | Some q :: l' =>
      match numbers l' with Some qs => Some (q :: qs) | None => None end
  end.

(** ** The environment of one request *)

Record Env : Type := mkEnv {
  (** [process.env.JWT_SECRET], which the deployment sets *)
  JWT_SECRET : string;
  (** the clock as read inside [jwt.verify] *)
  t_verify : Z;
  (** the clock as read by the handler ([Date.now()], [new Date()]) *)
  t_now : Z;
  (** the clock as read inside [jwt.sign] *)
  t_sign : Z;
  (** the result of [bcrypt.genSalt(10)] *)
  salt : string;
  (** the object id given to a new document *)
  fresh_id : string;
  (** the order in which a query of this request yields two hive logs of
      equal datePlaced *)
  tie : Hive -> Hive -> bool
}.

Inductive jws_result : Type :=
| JwsMalformed
| JwsBadSignature
| JwsPayload (claims : json).

Inductive jwt_error : Type :=
| TokenMalformed
| TokenBadSignature
| TokenExpired
| TokenInvalidExp.

Inductive verified : Type :=
| VerifyError (e : jwt_error)
| Verified (user : json).

Inductive validator : Type :=
| Exists
| NotEmpty
| IsLength (min : nat)
| IsIn (values : list string)
| IsISO8601
| IsFloat (min max : option Q)
| IsInt (min : option Q).

(** One [check(field)...] or [query(field)...] chain. *)
Record Chain : Type := mkChain {
  field : string;
  optional : bool;
  validators : list validator
}.

Definition check (f : string) (vs : list validator) : Chain := mkChain f false vs.

(** ** Library primitives

    What the server calls and does not define. *)

Class Lib : Type := mkLib {
  (** validator.js: the format tests of [isFloat] and [isInt], and
      [isISO8601] *)
  float_syntax : string -> bool;
  int_syntax : string -> bool;
  isISO8601 : string -> bool;
  (** JavaScript: [parseFloat(s)], [Number(s)], [parseInt(s)], [new Date(s)] *)
  parseFloat : string -> option Q;
  toNumber : string -> option Q;
  parseInt : string -> option Z;
  Date_parse : string -> jsdate;
  (** express-validator: the entry of [errors.array()] for a failed
      validator, from the location, the field and its value *)
  validation_error : string -> string -> option string -> json;
  (** bcryptjs: [hash(password, salt)] and [compare(password, hash)] *)
  bcrypt_hash : string -> string -> string;
  bcrypt_compare : string -> string -> bool;
  (** JSON Web Signature: the compact serialisation of signed claims, and
      its decoding and signature check under a secret *)
  jws_sign : json -> string -> string;
  jws_verify : string -> string -> jws_result;
  (** MongoDB: the spherical distance, in metres, between two GeoJSON
      points *)
  sphere_dist : list Q -> list Q -> Q
}.

Section Server.

Context {lib : Lib}.

(** *** express-validator *)

Definition at_least (min : option Q) (x : option Q) : bool :=
  match min, x with
  | None, _ => true
  | Some m, Some q => Qle_bool m q
  | Some _, None => false
  end.

Definition at_most (max : option Q) (x : option Q) : bool :=
  match max, x with
  | None, _ => true
  | Some m, Some q => Qle_bool q m
  | Some _, None => false
  end.

(** A validator sees the value as a string, an absent value as [""]. *)
Definition run_validator (v : validator) (value : option string) : bool :=
  let s := match value with Some s => s | None => "" end in
  match v with
  | Exists => match value with Some _ => true | None => false end
  | NotEmpty => negb (String.eqb s "")
  | IsLength min => Nat.leb min (String.length s)
  | IsIn values => existsb (String.eqb s) values
  | IsISO8601 => isISO8601 s
  | IsFloat min max =>
      float_syntax s && at_least min (parseFloat s) && at_most max (parseFloat s)
  | IsInt min => int_syntax s && at_least min (toNumber s)
  end.

Definition chain_errors (loc : string) (fields : list (string * string)) (c : Chain)
  : list json :=
  let value := assoc (field c) fields in
  match optional c, value with
  | true, None => []
  | _, _ =>
      map (fun _ => validation_error loc (field c) value)
          (filter (fun v => negb (run_validator v value)) (validators c))
  end.

(** [validationResult(req).array()], the fields being looked for in one
    place of the request *)
Definition validationResult (loc : string) (checks : list Chain)
  (fields : list (string * string)) : list json :=
  flat_map (chain_errors loc fields) checks.

Definition isEmpty (errors : list json) : bool :=
  match errors with [] => true | _ => false end.

(** A field the handler destructures from the request. *)
Definition arg (k : string) (fields : list (string * string)) : string :=
  match assoc k fields with Some s => s | None => "" end.

Definition parseFloat_of (v : option string) : option Q :=
  match v with Some s => parseFloat s | None => None end.

Definition parseInt_of (v : option string) : option Z :=
  match v with Some s => parseInt s | None => None end.

(** *** jsonwebtoken *)

(** [jwt.sign(payload, secret, { expiresIn })]: [iat] is the clock in
    seconds and [exp] lies the time span after it. *)
Definition jwt_sign (claims : list (string * json)) (secret expiresIn : string)
  (clock : Z) : option string :=
  let iat := clock / 1000 in
  match ms expiresIn with
  | Some span =>
      Some (jws_sign (JObj (claims ++ [("iat", JNum (inject_Z iat));
                                       ("exp", JNum (inject_Z (iat + span / 1000)))]))
                     secret)
  | None => None
  end.

(** [jwt.verify(token, secret)]: the signature first, then the expiry. *)
Definition jwt_verify (token secret : string) (clock : Z) : verified :=
  match jws_verify token secret with
  | JwsMalformed => VerifyError TokenMalformed
  | JwsBadSignature => VerifyError TokenBadSignature
  | JwsPayload claims =>
      match get "exp" claims with
      | JUndefined => Verified claims
      | JNum e =>
          if Qle_bool e (inject_Z (clock / 1000)) then VerifyError TokenExpired
          else Verified claims
      | _ => VerifyError TokenInvalidExp
      end
  end.

(** *** Middleware *)

(** [authHeader && authHeader.split(' ')[1]] *)
Definition bearer (authHeader : option string) : option string :=
  match authHeader with
  | None => None
  | Some h => if String.eqb h "" then Some "" else nth_error (split_on " " h) 1
  end.

Definition authenticateToken (env : Env) (req : Request) : Response + json :=
  let token := bearer (authorization req) in
  if negb (truthy token) then inl (status_json 401 (error_body "Access token required"))
  else
    match jwt_verify (match token with Some t => t | None => "" end)
                     (JWT_SECRET env) (t_verify env) with
    | VerifyError _ => inl (status_json 403 (error_body "Invalid token"))
    | Verified user => inr user
    end.

Definition is_admin (user : json) : bool :=
  match get "role" user with
  | JStr r => String.eqb r "admin"
  | _ => false
  end.

Definition requireAdmin (user : json) : option Response :=
  if negb (is_admin user) then Some (status_json 403 (error_body "Admin access required"))
  else None.

(** *** express-validator: where [check] looks

    A chain built with [check(field)] looks for the field in the body, the
    cookies, the headers, the route parameters and the query string, and
    validates it wherever it is defined; when it is defined nowhere, the
    body's undefined field is validated, for the error report. *)

Inductive req_location : Type := InBody | InCookies | InHeaders | InParams | InQuery.

Definition location_name (l : req_location) : string :=
  match l with
  | InBody => "body"
  | InCookies => "cookies"
  | InHeaders => "headers"
  | InParams => "params"
  | InQuery => "query"
  end.

Definition locations : list req_location := [InBody; InCookies; InHeaders; InParams; InQuery].

Definition lower (c : ascii) : ascii :=
  let n := nat_of_ascii c in
  if (Nat.leb 65 n && Nat.leb n 90)%bool then ascii_of_nat (n + 32) else c.

Fixpoint toLowerCase (s : string) : string :=
  match s with
  | EmptyString => EmptyString
  | String c s' => String (lower c) (toLowerCase s')
  end.

(** The field at one location.  The server parses no cookies and its routes
    have no parameters; header names are in lower case. *)
Definition located (req : Request) (l : req_location) (f : string) : option string :=
  match l with
  | InBody => assoc f (body req)
  | InCookies => None
  | InHeaders => assoc (toLowerCase f) (headers req)
  | InParams => None
  | InQuery => assoc f (query req)
  end.

Definition defined {A : Type} (v : option A) : bool :=
  match v with Some _ => true | None => false end.

Definition instances (req : Request) (f : string) : list (req_location * option string) :=
  map (fun l => (l, located req l f)) locations.

(** The instances of its field that a chain validates. *)
Definition selected (req : Request) (c : Chain) : list (req_location * option string) :=
  let all := instances req (field c) in
  let withValue := filter (fun i => defined (snd i)) all in
  let chosen := match withValue with [] => firstn 1 all | _ => withValue end in
  if optional c then filter (fun i => defined (snd i)) chosen else chosen.

Definition check_errors (req : Request) (c : Chain) : list json :=
  flat_map (fun i =>
              map (fun _ => validation_error (location_name (fst i)) (field c) (snd i))
                  (filter (fun v => negb (run_validator v (snd i))) (validators c)))
           (selected req c).

(** [validationResult(req).array()], the fields being looked for wherever
    [check] looks *)
Definition validationResult_anywhere (req : Request) (checks : list Chain) : list json :=
  flat_map (check_errors req) checks.

(** The request passes every chain, at every place where the field is. *)
Definition accepted (checks : list Chain) (req : Request) : bool :=
  forallb (fun c =>
             forallb (fun i => forallb (fun v => run_validator v (snd i)) (validators c))
                     (selected req c))
          checks.

(** Whether the chains' fields are in the body and nowhere else. *)
Definition only_in_body (checks : list Chain) (req : Request) : bool :=
  forallb (fun c =>
             negb (defined (located req InHeaders (field c)))
             && negb (defined (located req InQuery (field c))))
          checks.

(** *** bcryptjs

    [hash] and [compare] throw unless their arguments are strings. *)

(** The body field [k] when it came as a string. *)
Definition as_string (req : Request) (k : string) : option string :=
  if existsb (String.eqb k) (numeric req) then None else assoc k (body req).

Definition bcrypt_hash_of (password : option string) (salt : string) : DB string :=
  match password with
  | Some p => ret (bcrypt_hash p salt)
  | None => throw
  end.

Definition bcrypt_compare_of (password : option string) (hashed : string) : DB bool :=
  match password with
  | Some p => ret (bcrypt_compare p hashed)
  | None => throw
  end.

(** *** POST /auth/register *)

Definition register_checks : list Chain :=
  [check "username" [NotEmpty];
   check "password" [IsLength 6];
   check "role" [IsIn ["beekeeper"; "admin"]]].

(** [new User({ username, password, role })], which passes the schema when
    the username and the role are defined, the username is not empty and
    the role is of the enum; the password is a bcrypt hash, which is never
    empty.  A number is cast to the string that renders it. *)
Definition new_User (env : Env) (username : option string) (password : string)
  (role : option string) : option User :=
  match username, role with
  | Some name, Some r =>
      if negb (String.eqb name "") && existsb (String.eqb r) ["beekeeper"; "admin"]
      then Some (mkUser (fresh_id env) name password r)
      else None
  | _, _ => None
  end.

Definition register (env : Env) (req : Request) (st : Store) : Outcome :=
  let errors := validationResult_anywhere req register_checks in
  if negb (isEmpty errors) then
    reply (status_json 400 (JObj [("errors", JArr errors)])) st
  else
    let username := assoc "username" (body req) in
    let password := as_string req "password" in
    let role := assoc "role" (body req) in
    try_catch (
      existingUser <- User_findOne username ;;
      match existingUser with
      | Some _ => ret (status_json 400 (error_body "Username already exists"))
      | None =>
          hashedPassword <- bcrypt_hash_of password (salt env) ;;
          let user := new_User env username hashedPassword role in
          _ <- User_save user ;;
          ret (status_json 201 (JObj [("message", JStr "User registered successfully")]))
      end) st.

(** The operation that looks the body's username up. *)
Definition looked_up (req : Request) : list db_op :=
  match assoc "username" (body req) with
  | Some name => [OpUserFindOne name]
  | None => [OpUserFindUndefined]
  end.

(** *** POST /auth/login *)

Definition login_checks : list Chain :=
  [check "username" [NotEmpty];
   check "password" [NotEmpty]].

Definition login_payload (env : Env) (user : User) : list (string * json) :=
  [("id", JStr (user_id user));
   ("username", JStr (username user));
   ("role", JStr (role user));
   ("syncToken", JNum (inject_Z (t_now env)))].

Definition login (env : Env) (req : Request) (st : Store) : Outcome :=
  let errors := validationResult_anywhere req login_checks in
  if negb (isEmpty errors) then
    reply (status_json 400 (JObj [("errors", JArr errors)])) st
  else
    let name := assoc "username" (body req) in
    let pass := as_string req "password" in
    try_catch (
      user <- User_findOne name ;;
      match user with
      | None => ret (status_json 400 (error_body "Invalid credentials"))
      | Some user =>
          isMatch <- bcrypt_compare_of pass (password user) ;;
          if negb isMatch then ret (status_json 400 (error_body "Invalid credentials"))
          else
            let payload := login_payload env user in
            match jwt_sign payload (JWT_SECRET env) "1h" (t_sign env) with
            | None => throw
            | Some token =>
                ret (res_json (JObj [("token", JStr token);
                                     ("syncToken", get "syncToken" (JObj payload))]))
            end
      end) st.

(** *** POST /api/hives *)

Definition hive_checks : list Chain :=
  [check "hiveId" [NotEmpty];
   check "datePlaced" [IsISO8601];
   check "latitude" [IsFloat (Some (-90 # 1)) (Some (90 # 1))];
   check "longitude" [IsFloat (Some (-180 # 1)) (Some (180 # 1))];
   check "numColonies" [IsInt (Some (1 # 1))]%Q].

(** [new Hive({ ... })]: the schema casts the numbers; [dateCreated] defaults
    to the clock.  [None] is a document that does not pass the schema. *)
Definition new_Hive (env : Env) (hiveId : string) (datePlaced : jsdate)
  (latitude longitude numColonies : string) : option Hive :=
  match datePlaced, toNumber latitude, toNumber longitude, toNumber numColonies with
  | Some d, Some la, Some lo, Some n =>
      Some (mkHive (fresh_id env) hiveId d la lo n (t_now env))
  | _, _, _, _ => None
  end.

Definition doc_json {A : Type} (to_json : A -> json) (doc : option A) : json :=
  match doc with Some d => to_json d | None => JNull end.

Definition add_hive (env : Env) (req : Request) (st : Store) : Outcome :=
  let errors := validationResult "body" hive_checks (body req) in
  if negb (isEmpty errors) then
    reply (status_json 400 (JObj [("errors", JArr errors)])) st
  else
    let hiveId := arg "hiveId" (body req) in
    let datePlaced := arg "datePlaced" (body req) in
    let latitude := arg "latitude" (body req) in
    let longitude := arg "longitude" (body req) in
    let numColonies := arg "numColonies" (body req) in
    try_catch (
      existingHive <- Hive_findOne hiveId ;;
      match existingHive with
      | Some _ => ret (status_json 400 (error_body "hiveId must be unique"))
      | None =>
          let hive := new_Hive env hiveId (Date_parse datePlaced)
                               latitude longitude numColonies in
          _ <- Hive_save hive ;;
          ret (status_json 201 (JObj [("message", JStr "Hive log added successfully");
                                      ("hive", doc_json hive_json hive)]))
      end) st.

(** *** GET /api/hives *)

(** [Math.ceil(count / limit)] *)
Definition page_count (count limit : Z) : Z :=
  Qceiling (inject_Z count / inject_Z limit).

Definition list_query (req : Request) : DateQuery :=
  let startDate := assoc "startDate" (query req) in
  let endDate := assoc "endDate" (query req) in
  mkDateQuery
    (if truthy startDate then Some (Date_parse (arg "startDate" (query req))) else None)
    (if truthy endDate then Some (Date_parse (arg "endDate" (query req))) else None).

Definition list_hives (env : Env) (req : Request) (st : Store) : Outcome :=
  let page := int_or (parseInt_of (assoc "page" (query req))) 1 in
  let limit := int_or (parseInt_of (assoc "limit" (query req))) 10 in
  let queryObj := list_query req in
  try_catch (
    hives <- Hive_find (tie env) queryObj ((page - 1) * limit) limit ;;
    count <- Hive_countDocuments queryObj ;;
    ret (res_json (JObj [("hives", JArr (map hive_json hives));
                         ("total", JNum (inject_Z count));
                         ("page", JNum (inject_Z page));
                         ("pages", JNum (inject_Z (page_count count limit)))]))) st.

(** *** POST /api/crops *)

Definition crop_checks : list Chain :=
  [check "name" [NotEmpty];
   check "floweringStart" [IsISO8601];
   check "floweringEnd" [IsISO8601];
   check "latitude" [IsFloat (Some (-90 # 1)) (Some (90 # 1))];
   check "longitude" [IsFloat (Some (-180 # 1)) (Some (180 # 1))];
   check "recommendedHiveDensity" [IsInt (Some (1 # 1))]%Q].

(** [new Crop({ ... })]; [None] is a document that does not pass the schema. *)
Definition new_Crop (env : Env) (name : string) (floweringStart floweringEnd : jsdate)
  (recommendedHiveDensity : string) (type : string) (coordinates : list (option Q))
  : option Crop :=
  match floweringStart, floweringEnd, toNumber recommendedHiveDensity,
        numbers coordinates with
  | Some s, Some e, Some n, Some cs =>
      Some (mkCrop (fresh_id env) name s e n (mkLocation type cs) (t_now env))
  | _, _, _, _ => None
  end.

Definition add_crop (env : Env) (req : Request) (st : Store) : Outcome :=
  let errors := validationResult "body" crop_checks (body req) in
  if negb (isEmpty errors) then
    reply (status_json 400 (JObj [("errors", JArr errors)])) st
  else
    let name := arg "name" (body req) in
    let floweringStart := arg "floweringStart" (body req) in
    let floweringEnd := arg "floweringEnd" (body req) in
    let latitude := arg "latitude" (body req) in
    let longitude := arg "longitude" (body req) in
    let recommendedHiveDensity := arg "recommendedHiveDensity" (body req) in
    if date_ge (Date_parse floweringStart) (Date_parse floweringEnd) then
      reply (status_json 400 (error_body "floweringStart must be before floweringEnd")) st
    else
      try_catch (
        let crop := new_Crop env name (Date_parse floweringStart) (Date_parse floweringEnd)
                      recommendedHiveDensity "Point"
                      [parseFloat longitude; parseFloat latitude] in
        _ <- Crop_save crop ;;
        ret (status_json 201 (JObj [("message", JStr "Crop entry added successfully");
                                    ("crop", doc_json crop_json crop)]))) st.

(** *** GET /api/crops/nearby *)

Definition nearby_checks : list Chain :=
  [mkChain "latitude" false [Exists; IsFloat (Some (-90 # 1)) (Some (90 # 1))];
   mkChain "longitude" false [Exists; IsFloat (Some (-180 # 1)) (Some (180 # 1))];
   mkChain "radius" true [IsFloat (Some (1 # 1)) None];
   mkChain "date" true [IsISO8601]]%Q.

Definition in_bloom (date : Z) (c : Crop) : bool :=
  Z.leb (floweringStart c) date && Z.leb date (floweringEnd c).

Definition within (center : list Q) (maxDistance : Q) (c : Crop) : bool :=
  Qle_bool (sphere_dist (coordinates (location c)) center) maxDistance.

Definition nearer (center : list Q) (a b : Crop) : bool :=
  Qle_bool (sphere_dist (coordinates (location a)) center)
           (sphere_dist (coordinates (location b)) center).

(** [Crop.find({ location: { $near: { $geometry, $maxDistance } },
    floweringStart: { $lte: date }, floweringEnd: { $gte: date } })]:
    the matching entries, nearest first. *)
Definition Crop_findNear (center : list (option Q)) (maxDistance : Q) (date : jsdate)
  : DB (list Crop) :=
  match numbers center, date with
  | Some point, Some d =>
      _ <- emit (OpCropFindNear point maxDistance d) ;;
      read (fun st =>
        sort_by (nearer point)
          (filter (fun c => within point maxDistance c && in_bloom d c) (crops st)))
  | _, _ => throw
  end.

Definition nearby_crops (env : Env) (req : Request) (st : Store) : Outcome :=
  let errors := validationResult "query" nearby_checks (query req) in
  if negb (isEmpty errors) then
    reply (status_json 400 (JObj [("errors", JArr errors)])) st
  else
    let latitude := parseFloat_of (assoc "latitude" (query req)) in
    let longitude := parseFloat_of (assoc "longitude" (query req)) in
    let radius := num_or (parseFloat_of (assoc "radius" (query req))) (100 # 1) in
    let date := assoc "date" (query req) in
    let queryDate :=
      if truthy date then Date_parse (arg "date" (query req)) else Some (t_now env) in
    try_catch (
      crops <- Crop_findNear [longitude; latitude] (radius * (1000 # 1))%Q queryDate ;;
      match crops with
      | [] => ret (status_json 200
                (JObj [("message", JStr "No crops found nearby for the given date");
                       ("crops", JArr [])]))
      | _ => ret (res_json (JObj [("crops", JArr (map crop_json crops))]))
      end) st.

(** *** CSV export, sync token, admin page *)

(** [new Parser({ fields }).parse(data)] *)
Definition parse (fields : list string) (data : list json) : Table :=
  mkTable fields (map (fun record => map (fun f => get f record) fields) data).

Definition export_hives (env : Env) (req : Request) (st : Store) : Outcome :=
  try_catch (
    hives <- Hive_findAll ;;
    let fields := ["hiveId"; "datePlaced"; "latitude"; "longitude"; "numColonies";
                   "dateCreated"] in
    let csv := parse fields (map hive_json hives) in
    ret (mkResponse 200 (Csv "hive_logs.csv" csv))) st.

(** [a[i]]; [undefined] out of range. *)
Definition index (a : list Q) (i : nat) : json :=
  match nth_error a i with Some q => JNum q | None => JUndefined end.

Definition export_row (crop : Crop) : json :=
  JObj [("name", JStr (name crop));
        ("floweringStart", JDate (floweringStart crop));
        ("floweringEnd", JDate (floweringEnd crop));
        ("recommendedHiveDensity", JNum (recommendedHiveDensity crop));
        ("latitude", index (coordinates (location crop)) 1);
        ("longitude", index (coordinates (location crop)) 0);
        ("dateCreated", JDate (crop_dateCreated crop))].

Definition export_crops (env : Env) (req : Request) (st : Store) : Outcome :=
  try_catch (
    crops <- Crop_findAll ;;
    let data := map export_row crops in
    let fields := ["name"; "floweringStart"; "floweringEnd"; "recommendedHiveDensity";
                   "latitude"; "longitude"; "dateCreated"] in
    let csv := parse fields data in
    ret (mkResponse 200 (Csv "crop_entries.csv" csv))) st.

Definition sync (env : Env) (req : Request) (st : Store) : Outcome :=
  let syncToken := t_now env in
  reply (res_json (JObj [("syncToken", JNum (inject_Z syncToken))])) st.

Definition admin (env : Env) (req : Request) (st : Store) : Outcome :=
  reply (mkResponse 200 (Html ["/export/hives"; "/export/crops"; "/api-docs"])) st.

(** *** Routing *)

(** The handler behind [authenticateToken], where there is one. *)
Definition protected (r : Route) : bool :=
  match r with
  | PostRegister | PostLogin => false
  | _ => true
  end.

Definition admin_only (r : Route) : bool :=
  match r with
  | GetExportHives | GetExportCrops | GetAdmin => true
  | _ => false
  end.

Definition handler (r : Route) : Env -> Request -> Store -> Outcome :=
  match r with
  | PostRegister => register
  | PostLogin => login
  | PostHives => add_hive
  | GetHives => list_hives
  | PostCrops => add_crop
  | GetCropsNearby => nearby_crops
  | GetExportHives => export_hives
  | GetExportCrops => export_crops
  | GetSync => sync
  | GetAdmin => admin
  end.

(** The middleware chain of a route, ending in its handler. *)
Definition handle (env : Env) (req : Request) (st : Store) : Outcome :=
  if protected (route req) then
    match authenticateToken env req with
    | inl refused => reply refused st
    | inr user =>
        if admin_only (route req) then
          match requireAdmin user with
          | Some refused => reply refused st
          | None => handler (route req) env req st
          end
        else handler (route req) env req st
    end
  else handler (route req) env req st.

(** *** What the properties speak of *)

(** The JSON body of a response. *)
Definition body_json (r : Response) : json :=
  match payload r with Json j => j | _ => JUndefined end.



(** The ways one request can change the store. *)
Inductive store_step (st : Store) : Store -> Prop :=
| step_same : store_step st st
| step_user u :
    find_user (username u) st = None ->
    store_step st (mkStore (users st ++ [u]) (hives st) (crops st))
| step_hive h :
    find_hive (hiveId h) st = None ->
    store_step st (mkStore (users st) (hives st ++ [h]) (crops st))
| step_crop c :
    floweringStart c < floweringEnd c ->
    store_step st (mkStore (users st) (hives st) (crops st ++ [c])).

(** The response of the nearby handler for the entries found. *)
Definition nearby_response (found : list Crop) : Response :=
  match found with
  | [] => status_json 200
            (JObj [("message", JStr "No crops found nearby for the given date");
                   ("crops", JArr [])])
  | _ => res_json (JObj [("crops", JArr (map crop_json found))])
  end.


(** *** Validation *)

Definition chain_ok (fields : list (string * string)) (c : Chain) : bool :=
  match optional c, assoc (field c) fields with
  | true, None => true
  | _, value => forallb (fun v => run_validator v value) (validators c)
  end.

(** The request passes every chain. *)
Definition valid (checks : list Chain) (fields : list (string * string)) : bool :=
  forallb (chain_ok fields) checks.

End Server.

(** ** A reference instance of the library primitives

    Small executable stand-ins, used to run the handlers on concrete
    requests. *)

Module Sample.

Definition all_digits (s : string) : bool :=
  match s with
  | EmptyString => false
  | _ => String.eqb (snd (read_digits 0 s)) ""
  end.

Definition natural (s : string) : option Z :=
  if all_digits s then Some (fst (read_digits 0 s)) else None.

(** Decimal numerals such as ["75.8"], ["-26.9"], ["100"]. *)
Definition unsigned_decimal (s : string) : option Q :=
  match split_on "." s with
  | [whole] => option_map inject_Z (natural whole)
  | [whole; frac] =>
      match natural whole, natural frac with
      | Some n, Some m =>
          let scale := 10 ^ Z.of_nat (String.length frac) in
          Some (Qred (Qmake (n * scale + m) (Z.to_pos scale)))
      | _, _ => None
      end
  | _ => None
  end.

Definition decimal (s : string) : option Q :=
  match s with
  | String "-" rest => option_map Qopp (unsigned_decimal rest)
  | _ => unsigned_decimal s
  end.

Definition integer (s : string) : option Z :=
  match s with
  | String "-" rest => option_map Z.opp (natural rest)
  | _ => natural s
  end.

(** Days from 1970-01-01 to a date of the proleptic Gregorian calendar. *)
Definition days_from_civil (y m d : Z) : Z :=
  let y' := if m <=? 2 then y - 1 else y in
  let era := y' / 400 in
  let yoe := y' - era * 400 in
  let doy := (153 * (if 2 <? m then m - 3 else m + 9) + 2) / 5 + d - 1 in
  let doe := yoe * 365 + yoe / 4 - yoe / 100 + doy in
  era * 146097 + doe - 719468.

(** Calendar dates written [YYYY-MM-DD], at midnight UTC. *)
Definition calendar_date (s : string) : jsdate :=
  match split_on "-" s with
  | [ys; ms; ds] =>
      match natural ys, natural ms, natural ds with
      | Some y, Some m, Some d =>
          if (String.length ys =? 4)%nat && (String.length ms =? 2)%nat
             && (String.length ds =? 2)%nat
             && (1 <=? m) && (m <=? 12) && (1 <=? d) && (d <=? 31)
          then Some (days_from_civil y m d * 86400000)
          else None
      | _, _, _ => None
      end
  | _ => None
  end.

Definition is_some {A : Type} (o : option A) : bool :=
  match o with Some _ => true | None => false end.

Definition error_entry (loc f : string) (value : option string) : json :=
  JObj [("value", match value with Some v => JStr v | None => JUndefined end);
        ("msg", JStr "Invalid value");
        ("param", JStr f);
        ("location", JStr loc)].

(** A keyed digest standing in for bcrypt: the salt, then the password
    reversed; the salt is the part of a hash before the first ["$"]. *)
Fixpoint reverse (s : string) : string :=
  match s with
  | EmptyString => EmptyString
  | String a rest => (reverse rest ++ String a EmptyString)%string
  end.

Definition hash (pass salt : string) : string := (salt ++ "$" ++ reverse pass)%string.

Definition compare (pass hashed : string) : bool :=
  match split_on "$" hashed with
  | salt :: _ => String.eqb (hash pass salt) hashed
  | [] => false
  end.

(** Tokens [secret.username.role.exp] standing in for signed claims. *)
Definition sign (claims : json) (secret : string) : string :=
  match get "username" claims, get "role" claims, get "exp" claims with
  | JStr u, JStr r, JNum e =>
      (secret ++ "." ++ u ++ "." ++ r ++ "."
       ++ (if Qle_bool e (1000 # 1) then "early" else "late"))%string
  | _, _, _ => ""
  end.

Definition verify (token secret : string) : jws_result :=
  match split_on "." token with
  | [key; u; r; e] =>
      if String.eqb key secret then
        JwsPayload (JObj [("username", JStr u); ("role", JStr r);
                          ("exp", JNum (if String.eqb e "early" then 1000 # 1
                                        else 4000000000 # 1))])
      else JwsBadSignature
  | _ => JwsMalformed
  end.

(** A distance on coordinates, about 111 km to the degree. *)
Definition distance (a b : list Q) : Q :=
  match a, b with
  | [x1; y1], [x2; y2] => ((Qabs (x1 - x2) + Qabs (y1 - y2)) * (111195 # 1))%Q
  | _, _ => 0%Q
  end.

Definition lib : Lib :=
  mkLib (fun s => is_some (decimal s)) (fun s => is_some (integer s))
        (fun s => is_some (calendar_date s))
        decimal decimal integer calendar_date
        error_entry hash compare sign verify distance.

Definition env : Env :=
  mkEnv "s3cret" 1744700000000 1744700000000 1744700000123 "salt" "id-9"
        (fun _ _ => true).

Definition bee1 : User := mkUser "id-1" "bee1" (hash "password123" "salt") "beekeeper".

Definition hive4 : Hive :=
  mkHive "id-2" "HIVE004" 1744070400000 (287041 # 10000) (771025 # 10000) (5 # 1)
         1744700000000.

Definition sunflower : Crop :=
  mkCrop "id-3" "Sunflower" 1744243200000 1745539200000 (5 # 1)
         (mkLocation "Point" [757873 # 10000; 269124 # 10000]) 1744700000000.

Definition stocked : Store := mkStore [bee1] [hive4] [sunflower].

Definition bee_token : string := "s3cret.bee1.beekeeper.late".
Definition admin_token : string := "s3cret.root.admin.late".

Definition request (r : Route) (token : option string)
  (body query : list (string * string)) : Request :=
  mkRequest r (option_map (fun t => ("Bearer " ++ t)%string) token) body query [] [].

Definition login_request (name pass : string) : Request :=
  request PostLogin None [("username", name); ("password", pass)] [].

Definition register_request (name pass r : string) : Request :=
  request PostRegister None [("username", name); ("password", pass); ("role", r)] [].

(** The request with its password as a JSON number, as in
    [{"username": "bee1", "password": 1234567}]. *)
Definition number_password (req : Request) : Request :=
  mkRequest (route req) (authorization req) (body req) (query req) (headers req)
            ["password"].

(** The request with its fields in the query string and the body [{}], as
    in [POST /auth/login?username=bee1&password=password123]. *)
Definition in_query (req : Request) : Request :=
  mkRequest (route req) (authorization req) [] (body req) (headers req) [].

Definition hive_request : Request :=
  request PostHives (Some bee_token)
    [("hiveId", "HIVE005"); ("datePlaced", "2025-04-09"); ("latitude", "28.7");
     ("longitude", "77.1"); ("numColonies", "5")] [].

Definition hive5 : Hive :=
  mkHive "id-9" "HIVE005" 1744156800000 (287 # 10) (771 # 10) (5 # 1) 1744700000000.

Definition list_request : Request := request GetHives (Some bee_token) [] [].


Definition nearby_request (radius : option string) (date : string) : Request :=
  request GetCropsNearby (Some bee_token) []
    ([("latitude", "26.9"); ("longitude", "75.8")]
     ++ match radius with Some r => [("radius", r)] | None => [] end
     ++ [("date", date)]).


Definition claims_of (name r : string) : json :=
  JObj [("username", JStr name); ("role", JStr r); ("exp", JNum (4000000000 # 1))].

(** The server answering requests one after the other. *)
Fixpoint serve (reqs : list Request) (st : Store) : list Response * Store :=
  match reqs with
  | [] => ([], st)
  | req :: rest =>
      let out := handle (lib := lib) env req st in
      let '(answers, final) := serve rest (store out) in
      (response out :: answers, final)
  end.

(** The session of the README: register, log in, add a hive log twice, add
    a crop, look for crops in bloom on two dates. *)
Definition readme_session : list Request :=
  [register_request "bee1" "password123" "beekeeper";
   login_request "bee1" "password123";
   request PostHives (Some bee_token)
     [("hiveId", "HIVE004"); ("datePlaced", "2025-04-08"); ("latitude", "28.7041");
      ("longitude", "77.1025"); ("numColonies", "5")] [];
   request PostHives (Some bee_token)
     [("hiveId", "HIVE004"); ("datePlaced", "2025-04-08"); ("latitude", "28.7041");
      ("longitude", "77.1025"); ("numColonies", "5")] [];
   request PostCrops (Some bee_token)
     [("name", "Sunflower"); ("floweringStart", "2025-04-10");
      ("floweringEnd", "2025-04-25"); ("latitude", "26.9124");
      ("longitude", "75.7873"); ("recommendedHiveDensity", "5")] [];
   nearby_request (Some "50") "2025-04-15";
   nearby_request (Some "50") "2025-05-01"].

End Sample.

(** ** Further notions *)

(** [c] occurs in [s]. *)
Fixpoint mentions (c : ascii) (s : string) : bool :=
  match s with
  | EmptyString => false
  | String a rest => Ascii.eqb a c || mentions c rest
  end.

(** The elements of a JSON array. *)
Definition items (j : json) : list json :=
  match j with JArr l => l | _ => [] end.

Definition unique_usernames (st : Store) : Prop := NoDup (map username (users st)).

Definition well_formed_hive (h : Hive) : Prop :=
  hiveId h <> "" /\ (1 # 1 <= numColonies h)%Q.

(** A GeoJSON point, longitude first, both coordinates in range. *)
Definition well_located (c : Crop) : Prop :=
  exists lo la,
    location c = mkLocation "Point" [lo; la]
    /\ (-180 # 1 <= lo)%Q /\ (lo <= 180 # 1)%Q
    /\ (-90 # 1 <= la)%Q /\ (la <= 90 # 1)%Q.

Definition well_formed_crop (c : Crop) : Prop :=
  name c <> "" /\ well_located c /\ (1 # 1 <= recommendedHiveDensity c)%Q
  /\ floweringStart c < floweringEnd c.

Section Sessions.

Context {lib : Lib}.

Definition well_formed_user (u : User) : Prop :=
  username u <> ""
  /\ (role u = "beekeeper" \/ role u = "admin")
  /\ exists pass salt,
       (6 <= String.length pass)%nat /\ password u = bcrypt_hash pass salt.

(** The store after a sequence of requests, each served in its environment. *)
Fixpoint run (steps : list (Env * Request)) (st : Store) : Store :=
  match steps with
  | [] => st
  | (env, req) :: rest => run rest (store (handle env req st))
  end.

(** What serving one request does to the store: nothing, unless the answer
    is 201, and then one record is appended by the route that creates it. *)
Inductive effect (env : Env) (req : Request) (st : Store) (out : Outcome) : Prop :=
| effect_none :
    status (response out) <> 201 -> store out = st -> effect env req st out
| effect_user name pass r :
    route req = PostRegister ->
    accepted register_checks req = true ->
    assoc "username" (body req) = Some name ->
    as_string req "password" = Some pass ->
    assoc "role" (body req) = Some r ->
    find_user name st = None ->
    status (response out) = 201 ->
    store out
    = mkStore (users st ++ [mkUser (fresh_id env) name (bcrypt_hash pass (salt env)) r])
              (hives st) (crops st) ->
    effect env req st out
| effect_hive h :
    route req = PostHives ->
    valid hive_checks (body req) = true ->
    find_hive (arg "hiveId" (body req)) st = None ->
    new_Hive env (arg "hiveId" (body req)) (Date_parse (arg "datePlaced" (body req)))
      (arg "latitude" (body req)) (arg "longitude" (body req))
      (arg "numColonies" (body req)) = Some h ->
    status (response out) = 201 ->
    store out = mkStore (users st) (hives st ++ [h]) (crops st) ->
    effect env req st out
| effect_crop s e la lo n :
    route req = PostCrops ->
    valid crop_checks (body req) = true ->
    Date_parse (arg "floweringStart" (body req)) = Some s ->
    Date_parse (arg "floweringEnd" (body req)) = Some e ->
    s < e ->
    parseFloat (arg "latitude" (body req)) = Some la ->
    parseFloat (arg "longitude" (body req)) = Some lo ->
    toNumber (arg "recommendedHiveDensity" (body req)) = Some n ->
    status (response out) = 201 ->
    store out
    = mkStore (users st) (hives st)
              (crops st
               ++ [mkCrop (fresh_id env) (arg "name" (body req)) s e n
                     (mkLocation "Point" [lo; la]) (t_now env)]) ->
    effect env req st out.

End Sessions.

(** ** A second instance, whose tokens carry the login claims *)

Module Wire.

Definition show (q : Q) : string := NilZero.string_of_int (Z.to_int (Qnum q)).

Definition text (j : json) : string :=
  match j with JStr s => s | JNum q => show q | _ => "" end.

(** [secret.id.username.role.syncToken.iat.exp], the numbers in decimal. *)
Definition sign (claims : json) (secret : string) : string :=
  (secret ++ "." ++ text (get "id" claims) ++ "." ++ text (get "username" claims)
   ++ "." ++ text (get "role" claims) ++ "." ++ text (get "syncToken" claims)
   ++ "." ++ text (get "iat" claims) ++ "." ++ text (get "exp" claims))%string.

Definition number (s : string) : json :=
  match Sample.natural s with Some n => JNum (inject_Z n) | None => JNull end.

Definition verify (token secret : string) : jws_result :=
  match split_on "." token with
  | [key; i; u; r; s; a; e] =>
      if String.eqb key secret then
        JwsPayload (JObj [("id", JStr i); ("username", JStr u); ("role", JStr r);
                          ("syncToken", number s); ("iat", number a);
                          ("exp", number e)])
      else JwsBadSignature
  | _ => JwsMalformed
  end.

Definition lib : Lib :=
  mkLib (fun s => Sample.is_some (Sample.decimal s))
        (fun s => Sample.is_some (Sample.integer s))
        (fun s => Sample.is_some (Sample.calendar_date s))
        Sample.decimal Sample.decimal Sample.integer Sample.calendar_date
        Sample.error_entry Sample.hash Sample.compare sign verify Sample.distance.

End Wire.

(** ** Properties *)

(** *** Proof steps *)

(** Unfolds the store monad and splits on every test a handler makes. *)
Ltac run_db :=
  unfold try_catch, reply, bind, emit, read, write, ret, throw; simpl.

(** Discharges the premises of [H] that evaluation settles. *)
Ltac by_evaluation H :=
  repeat match type of H with
         | ?A -> _ =>
             let a := fresh in
             assert (a : A) by first [reflexivity | lia | vm_compute; reflexivity];
             specialize (H a); clear a
         end.

Ltac split_tests :=
  repeat match goal with
         | |- context [match ?x with _ => _ end] =>
             lazymatch x with
             | context [match _ with _ => _ end] => fail
             | _ => destruct x eqn:?; simpl
             end
         end.

Section Properties.

Context {lib : Lib}.

Lemma isEmpty_app (a b : list json) : isEmpty (a ++ b) = isEmpty a && isEmpty b.
Proof. destruct a; reflexivity. Qed.

Lemma isEmpty_failed (f : validator -> json) (p : validator -> bool) (vs : list validator) :
  isEmpty (map f (filter (fun v => negb (p v)) vs)) = forallb p vs.
Proof.
  induction vs as [|v vs IH]; simpl; [reflexivity|].
  destruct (p v); simpl; [exact IH | reflexivity].
Qed.

Lemma isEmpty_chain_errors loc fields c :
  isEmpty (chain_errors loc fields c) = chain_ok fields c.
Proof.
  unfold chain_errors, chain_ok.
  destruct (optional c), (assoc (field c) fields); try reflexivity;
    apply (isEmpty_failed (fun _ => validation_error loc (field c) _)).
Qed.

Lemma isEmpty_validationResult loc checks fields :
  isEmpty (validationResult loc checks fields) = valid checks fields.
Proof.
  unfold validationResult, valid.
  induction checks as [|c cs IH]; simpl; [reflexivity|].
  now rewrite isEmpty_app, isEmpty_chain_errors, IH.
Qed.

Lemma not_isEmpty (errors : list json) : isEmpty errors = false <-> errors <> [].
Proof. destruct errors; simpl; split; congruence. Qed.

(** *** Routing through the middleware *)

Lemma handle_authenticated env req st user :
  protected (route req) = true ->
  admin_only (route req) = false ->
  authenticateToken env req = inr user ->
  handle env req st = handler (route req) env req st.
Proof. unfold handle. now intros -> -> ->. Qed.

Lemma handle_admin env req st user :
  admin_only (route req) = true ->
  authenticateToken env req = inr user ->
  is_admin user = true ->
  handle env req st = handler (route req) env req st.
Proof.
  unfold handle, requireAdmin. intros Ha -> Hu. rewrite Ha, Hu.
  destruct (protected (route req)); reflexivity.
Qed.

Lemma handle_refused env req st refused :
  protected (route req) = true ->
  authenticateToken env req = inl refused ->
  handle env req st = reply refused st.
Proof. unfold handle. now intros -> ->. Qed.

(** C10: on a protected endpoint, a request whose Authorization header
    yields no bearer token is answered 401 "Access token required", and a
    request whose token is malformed, has an invalid signature or is expired
    is answered 403 "Invalid token"; either way the store is left as it was
    and no store operation is issued, the handler not being run. *)
Theorem authenticateToken_guards_protected env req st :
  protected (route req) = true ->
  (truthy (bearer (authorization req)) = false ->
   handle env req st
   = mkOutcome (status_json 401 (error_body "Access token required")) st [])
  /\
  (forall token,
     bearer (authorization req) = Some token -> token <> "" ->
     (jws_verify token (JWT_SECRET env) = JwsMalformed
      \/ jws_verify token (JWT_SECRET env) = JwsBadSignature
      \/ exists claims e,
           jws_verify token (JWT_SECRET env) = JwsPayload claims
           /\ get "exp" claims = JNum e
           /\ (e <= inject_Z (t_verify env / 1000))%Q) ->
     handle env req st
     = mkOutcome (status_json 403 (error_body "Invalid token")) st []).
Proof.
  intros Hp. split.
  - intros Hno. apply handle_refused; [exact Hp|].
    unfold authenticateToken. now rewrite Hno.
  - intros token Hb Hne Hbad. apply handle_refused; [exact Hp|].
    unfold authenticateToken. rewrite Hb. simpl.
    apply String.eqb_neq in Hne. rewrite Hne. simpl.
    unfold jwt_verify.
    destruct Hbad as [-> | [-> | (claims & e & -> & -> & Hle)]]; try reflexivity.
    apply Qle_bool_iff in Hle. now rewrite Hle.
Qed.

(** *** Users *)

Lemma find_user_none name st :
  find_user name st = None <-> (forall u, In u (users st) -> username u <> name).
Proof.
  unfold find_user. split.
  - intros H u Hin Heq. apply (find_none _ _ H) in Hin.
    apply String.eqb_neq in Hin. contradiction.
  - intros H. destruct (find _ _) as [u|] eqn:E; [|reflexivity].
    apply find_some in E as [Hin Heq]. apply String.eqb_eq in Heq.
    now apply H in Hin.
Qed.

Lemma find_user_some name st :
  (exists u, find_user name st = Some u)
  <-> (exists u, In u (users st) /\ username u = name).
Proof.
  split.
  - intros [u E]. apply find_some in E as [Hin Heq]. apply String.eqb_eq in Heq. eauto.
  - intros (u & Hin & Heq). destruct (find_user name st) as [v|] eqn:E; [eauto|].
    exfalso. exact (proj1 (find_user_none name st) E u Hin Heq).
Qed.

(** *** Validation where [check] looks *)

Lemma isEmpty_flat_map {A : Type} (f : A -> list json) (l : list A) :
  isEmpty (flat_map f l) = forallb (fun x => isEmpty (f x)) l.
Proof.
  induction l as [|x l IH]; simpl; [reflexivity|]. now rewrite isEmpty_app, IH.
Qed.

Lemma forallb_eq {A : Type} (f g : A -> bool) (l : list A) :
  (forall x, f x = g x) -> forallb f l = forallb g l.
Proof. intros H. induction l as [|x l IH]; simpl; [reflexivity | now rewrite H, IH]. Qed.

Lemma isEmpty_validationResult_anywhere req checks :
  isEmpty (validationResult_anywhere req checks) = accepted checks req.
Proof.
  unfold validationResult_anywhere, accepted, check_errors.
  rewrite isEmpty_flat_map. apply forallb_eq. intros c.
  rewrite isEmpty_flat_map. apply forallb_eq. intros i.
  apply (isEmpty_failed (fun _ => validation_error _ (field c) _)).
Qed.

(** The body's field is validated when it is defined. *)
Lemma body_selected req c v :
  assoc (field c) (body req) = Some v -> In (InBody, Some v) (selected req c).
Proof.
  intros H. unfold selected, instances, locations. cbn [map located filter snd defined].
  rewrite H. cbn [defined filter]. destruct (optional c); [cbn [filter snd defined]|]; now left.
Qed.

Lemma accepted_body checks req c v :
  accepted checks req = true -> In c checks ->
  assoc (field c) (body req) = Some v ->
  forallb (fun x => run_validator x (Some v)) (validators c) = true.
Proof.
  intros Ha Hc Hv. unfold accepted in Ha.
  rewrite forallb_forall in Ha. specialize (Ha c Hc).
  rewrite forallb_forall in Ha. exact (Ha _ (body_selected req c v Hv)).
Qed.

(** A request that has the fields in the body alone is validated on its
    body. *)
Lemma accepted_only_in_body checks req :
  only_in_body checks req = true -> accepted checks req = valid checks (body req).
Proof.
  unfold only_in_body, accepted, valid. induction checks as [|c cs IH]; [reflexivity|].
  cbn [forallb]. intros H. apply andb_true_iff in H as [Hc Hcs]. rewrite (IH Hcs).
  f_equal. clear IH Hcs. apply andb_true_iff in Hc as [Hh Hq].
  apply negb_true_iff in Hh, Hq.
  unfold selected, instances, locations, chain_ok.
  cbn [map filter snd defined]. rewrite Hh, Hq.
  cbn [located] in *.
  destruct (assoc (field c) (body req)) as [v|], (optional c);
    cbn [defined filter firstn forallb snd]; now rewrite ?andb_true_r.
Qed.

(** *** Login *)

Lemma accepted_login req name :
  accepted login_checks req = true ->
  assoc "username" (body req) = Some name -> name <> "".
Proof.
  intros Ha Hn.
  pose proof (accepted_body _ req (check "username" [NotEmpty]) name Ha
                (or_introl eq_refl) Hn) as H.
  simpl in H. rewrite andb_true_r in H. now apply negb_true_iff, String.eqb_neq in H.
Qed.

Lemma login_invalid env req st :
  accepted login_checks req = false ->
  login env req st
  = reply (status_json 400
             (JObj [("errors", JArr (validationResult_anywhere req login_checks))])) st.
Proof. unfold login. rewrite isEmpty_validationResult_anywhere. now intros ->. Qed.

Lemma login_undefined env req st :
  accepted login_checks req = true ->
  assoc "username" (body req) = None ->
  login env req st
  = mkOutcome (status_json 400 (error_body "Invalid credentials")) st
              [OpUserFindUndefined].
Proof.
  unfold login. rewrite isEmpty_validationResult_anywhere. intros -> Hn. simpl.
  now rewrite Hn.
Qed.

Lemma login_unknown env req st name :
  accepted login_checks req = true ->
  assoc "username" (body req) = Some name ->
  find_user name st = None ->
  login env req st
  = mkOutcome (status_json 400 (error_body "Invalid credentials")) st
              [OpUserFindOne name].
Proof.
  unfold login. rewrite isEmpty_validationResult_anywhere. intros -> Hn Hf. simpl.
  rewrite Hn. unfold try_catch, User_findOne, bind, emit, read. simpl. now rewrite Hf.
Qed.

(** [bcrypt.compare] throws on a password that is not a string, which it is
    given only when the user is found. *)
Lemma login_throws env req st name u :
  accepted login_checks req = true ->
  assoc "username" (body req) = Some name ->
  find_user name st = Some u ->
  as_string req "password" = None ->
  login env req st
  = mkOutcome (status_json 500 (error_body "Server error")) st [OpUserFindOne name].
Proof.
  unfold login. rewrite isEmpty_validationResult_anywhere. intros -> Hn Hf Hp. simpl.
  rewrite Hn, Hp. unfold try_catch, User_findOne, bind, emit, read. simpl.
  now rewrite Hf.
Qed.

Lemma login_mismatch env req st name pass u :
  accepted login_checks req = true ->
  assoc "username" (body req) = Some name ->
  find_user name st = Some u ->
  as_string req "password" = Some pass ->
  bcrypt_compare pass (password u) = false ->
  login env req st
  = mkOutcome (status_json 400 (error_body "Invalid credentials")) st
              [OpUserFindOne name].
Proof.
  unfold login. rewrite isEmpty_validationResult_anywhere. intros -> Hn Hf Hp Hc. simpl.
  rewrite Hn, Hp. unfold try_catch, User_findOne, bind, emit, read. simpl.
  now rewrite Hf, Hc.
Qed.

Lemma login_match env req st name pass u :
  accepted login_checks req = true ->
  assoc "username" (body req) = Some name ->
  find_user name st = Some u ->
  as_string req "password" = Some pass ->
  bcrypt_compare pass (password u) = true ->
  login env req st
  = mkOutcome
      (res_json
         (JObj [("token",
                 JStr (jws_sign
                         (JObj [("id", JStr (user_id u));
                                ("username", JStr (username u));
                                ("role", JStr (role u));
                                ("syncToken", JNum (inject_Z (t_now env)));
                                ("iat", JNum (inject_Z (t_sign env / 1000)));
                                ("exp", JNum (inject_Z (t_sign env / 1000 + 3600)))])
                         (JWT_SECRET env)));
                ("syncToken", JNum (inject_Z (t_now env)))]))
      st [OpUserFindOne name].
Proof.
  unfold login. rewrite isEmpty_validationResult_anywhere. intros -> Hn Hf Hp Hc. simpl.
  rewrite Hn, Hp. unfold try_catch, User_findOne, bind, emit, read. simpl.
  rewrite Hf, Hc. simpl. reflexivity.
Qed.

Lemma handle_login env req st :
  route req = PostLogin -> handle env req st = login env req st.
Proof. unfold handle. now intros ->. Qed.

(** The ways of a login. *)
Lemma login_cases env req st :
  (accepted login_checks req = false
   /\ login env req st
      = reply (status_json 400
                 (JObj [("errors", JArr (validationResult_anywhere req login_checks))])) st)
  \/ (accepted login_checks req = true
      /\ (forall name, assoc "username" (body req) = Some name -> find_user name st = None)
      /\ login env req st
         = mkOutcome (status_json 400 (error_body "Invalid credentials")) st
                     (looked_up req))
  \/ (exists name u,
        accepted login_checks req = true
        /\ assoc "username" (body req) = Some name
        /\ find_user name st = Some u
        /\ ((as_string req "password" = None
             /\ login env req st
                = mkOutcome (status_json 500 (error_body "Server error")) st
                            [OpUserFindOne name])
            \/ (exists pass,
                  as_string req "password" = Some pass
                  /\ bcrypt_compare pass (password u) = false
                  /\ login env req st
                     = mkOutcome (status_json 400 (error_body "Invalid credentials")) st
                                 [OpUserFindOne name])
            \/ (exists pass,
                  as_string req "password" = Some pass
                  /\ bcrypt_compare pass (password u) = true
                  /\ status (response (login env req st)) = 200
                  /\ store (login env req st) = st
                  /\ ops (login env req st) = [OpUserFindOne name]))).
Proof.
  destruct (accepted login_checks req) eqn:Ha;
    [|left; split; [reflexivity | now apply login_invalid]].
  right. unfold looked_up.
  destruct (assoc "username" (body req)) as [name|] eqn:Hn.
  - destruct (find_user name st) as [u|] eqn:Hf.
    + right. exists name, u. repeat split; try assumption.
      destruct (as_string req "password") as [pass|] eqn:Hp.
      * right. destruct (bcrypt_compare pass (password u)) eqn:Hc.
        -- right. exists pass. rewrite (login_match _ _ _ _ _ _ Ha Hn Hf Hp Hc).
           repeat split; assumption.
        -- left. exists pass. repeat split; try assumption.
           exact (login_mismatch _ _ _ _ _ _ Ha Hn Hf Hp Hc).
      * left. split; [reflexivity|]. exact (login_throws _ _ _ _ _ Ha Hn Hf Hp).
    + left. split; [reflexivity|]. split.
      * intros n E. now injection E as <-.
      * now apply login_unknown.
  - left. split; [reflexivity|]. split; [discriminate|]. now apply login_undefined.
Qed.

(** The two failures of a login whose password is a string are answered
    alike. *)
Lemma login_failures_alike env1 env2 req1 req2 st1 st2 name1 name2 pass u :
  route req1 = PostLogin -> route req2 = PostLogin ->
  accepted login_checks req1 = true ->
  accepted login_checks req2 = true ->
  assoc "username" (body req1) = Some name1 ->
  find_user name1 st1 = None ->
  assoc "username" (body req2) = Some name2 ->
  find_user name2 st2 = Some u ->
  as_string req2 "password" = Some pass ->
  bcrypt_compare pass (password u) = false ->
  response (handle env1 req1 st1) = status_json 400 (error_body "Invalid credentials")
  /\ response (handle env1 req1 st1) = response (handle env2 req2 st2).
Proof.
  intros R1 R2 A1 A2 N1 F1 N2 F2 P C.
  rewrite (handle_login _ _ _ R1), (handle_login _ _ _ R2).
  rewrite (login_unknown _ _ _ _ A1 N1 F1), (login_mismatch _ _ _ _ _ _ A2 N2 F2 P C).
  now split.
Qed.

(** C2, as the code has it: a login that passes validation, whose username
    exists and whose password, a string, matches the stored hash, is
    answered 200 with a body of exactly the keys [token] and [syncToken];
    [syncToken] is the clock read by the handler, and [token] is the signed
    claims {id, username, role, syncToken, iat, exp} with
    [exp = iat + 3600] seconds.  No other login is answered 200. *)
Theorem login_issues_token env req st :
  route req = PostLogin ->
  accepted login_checks req = true ->
  let out := handle env req st in
  (forall name pass u,
     assoc "username" (body req) = Some name ->
     find_user name st = Some u ->
     as_string req "password" = Some pass ->
     bcrypt_compare pass (password u) = true ->
     let iat := t_sign env / 1000 in
     let claims :=
       JObj [("id", JStr (user_id u));
             ("username", JStr (username u));
             ("role", JStr (role u));
             ("syncToken", JNum (inject_Z (t_now env)));
             ("iat", JNum (inject_Z iat));
             ("exp", JNum (inject_Z (iat + 3600)))] in
     response out
     = mkResponse 200 (Json (JObj [("token", JStr (jws_sign claims (JWT_SECRET env)));
                                   ("syncToken", JNum (inject_Z (t_now env)))]))
     /\ store out = st)
  /\ (status (response out) = 200 ->
      exists name pass u,
        assoc "username" (body req) = Some name
        /\ find_user name st = Some u
        /\ as_string req "password" = Some pass
        /\ bcrypt_compare pass (password u) = true).
Proof.
  intros R V out. subst out. rewrite (handle_login _ _ _ R). split.
  - intros name pass u Hn Hf Hp Hc. now rewrite (login_match _ _ _ _ _ _ V Hn Hf Hp Hc).
  - destruct (assoc "username" (body req)) as [name|] eqn:Hn;
      [|rewrite (login_undefined _ _ _ V Hn); simpl; discriminate].
    destruct (find_user name st) as [u|] eqn:Hf;
      [|rewrite (login_unknown _ _ _ _ V Hn Hf); simpl; discriminate].
    destruct (as_string req "password") as [pass|] eqn:Hp;
      [|rewrite (login_throws _ _ _ _ _ V Hn Hf Hp); simpl; discriminate].
    destruct (bcrypt_compare pass (password u)) eqn:Hc.
    + intros _. exists name, pass, u. auto.
    + rewrite (login_mismatch _ _ _ _ _ _ V Hn Hf Hp Hc). simpl. discriminate.
Qed.

(** *** Registration *)

Lemma valid_register fields :
  valid register_checks fields = true
  <-> arg "username" fields <> ""
      /\ (6 <= String.length (arg "password" fields))%nat
      /\ (arg "role" fields = "beekeeper" \/ arg "role" fields = "admin").
Proof.
  unfold valid, register_checks, chain_ok, arg. cbn -[Nat.leb String.length].
  rewrite !andb_true_r, !andb_true_iff, negb_true_iff, String.eqb_neq, orb_false_r,
    orb_true_iff, !String.eqb_eq, Nat.leb_le.
  destruct (assoc "username" fields), (assoc "password" fields), (assoc "role" fields);
    tauto.
Qed.

Lemma as_string_body req k v : as_string req k = Some v -> assoc k (body req) = Some v.
Proof. unfold as_string. now destruct (existsb _ _). Qed.

(** What validation says of the fields that the handler takes from the
    body. *)
Lemma accepted_register req :
  accepted register_checks req = true ->
  (forall name, assoc "username" (body req) = Some name -> name <> "")
  /\ (forall pass, assoc "password" (body req) = Some pass ->
        (6 <= String.length pass)%nat)
  /\ (forall r, assoc "role" (body req) = Some r -> r = "beekeeper" \/ r = "admin").
Proof.
  intros Ha. split; [|split].
  - intros name Hn.
    pose proof (accepted_body _ req (check "username" [NotEmpty]) name Ha
                  (or_introl eq_refl) Hn) as H.
    simpl in H. rewrite andb_true_r in H. now apply negb_true_iff, String.eqb_neq in H.
  - intros pass Hp.
    pose proof (accepted_body _ req (check "password" [IsLength 6]) pass Ha
                  (or_intror (or_introl eq_refl)) Hp) as H.
    cbn -[Nat.leb String.length] in H. rewrite andb_true_r in H. now apply Nat.leb_le in H.
  - intros r Hr.
    pose proof (accepted_body _ req (check "role" [IsIn ["beekeeper"; "admin"]]) r Ha
                  (or_intror (or_intror (or_introl eq_refl))) Hr) as H.
    simpl in H.
    rewrite andb_true_r, orb_false_r, orb_true_iff, !String.eqb_eq in H. exact H.
Qed.

Lemma handle_register env req st :
  route req = PostRegister -> handle env req st = register env req st.
Proof. unfold handle. now intros ->. Qed.

Lemma register_invalid env req st :
  accepted register_checks req = false ->
  register env req st
  = reply (status_json 400
             (JObj [("errors", JArr (validationResult_anywhere req register_checks))]))
          st.
Proof. unfold register. rewrite isEmpty_validationResult_anywhere. now intros ->. Qed.

Lemma register_taken env req st name u :
  accepted register_checks req = true ->
  assoc "username" (body req) = Some name ->
  find_user name st = Some u ->
  register env req st
  = mkOutcome (status_json 400 (error_body "Username already exists")) st
              [OpUserFindOne name].
Proof.
  unfold register. rewrite isEmpty_validationResult_anywhere. intros -> Hn Hf. simpl.
  rewrite Hn. unfold try_catch, User_findOne, bind, emit, read. simpl. now rewrite Hf.
Qed.

(** A registration whose username is free and which lacks the username, the
    role or a password that is a string throws: [bcrypt.hash] on the
    password, [save] on the other two. *)
Lemma register_throws env req st :
  accepted register_checks req = true ->
  (forall name, assoc "username" (body req) = Some name -> find_user name st = None) ->
  assoc "username" (body req) = None \/ as_string req "password" = None
  \/ assoc "role" (body req) = None ->
  register env req st
  = mkOutcome (status_json 500 (error_body "Server error")) st (looked_up req).
Proof.
  unfold register, looked_up. rewrite isEmpty_validationResult_anywhere.
  intros -> Hf Hmiss. simpl.
  destruct (assoc "username" (body req)) as [name|] eqn:Hn.
  - unfold try_catch, User_findOne, bind, emit, read. simpl.
    rewrite (Hf name eq_refl). simpl.
    destruct (as_string req "password") as [pass|]; [|reflexivity]. simpl.
    destruct (assoc "role" (body req)) as [r|]; [|reflexivity].
    destruct Hmiss as [H | [H | H]]; discriminate H.
  - unfold try_catch, User_findOne, bind, emit, read. simpl.
    destruct (as_string req "password") as [pass|]; reflexivity.
Qed.

Lemma register_fresh env req st name pass r :
  accepted register_checks req = true ->
  assoc "username" (body req) = Some name ->
  as_string req "password" = Some pass ->
  assoc "role" (body req) = Some r ->
  find_user name st = None ->
  let user := mkUser (fresh_id env) name (bcrypt_hash pass (salt env)) r in
  register env req st
  = mkOutcome (status_json 201 (JObj [("message", JStr "User registered successfully")]))
              (mkStore (users st ++ [user]) (hives st) (crops st))
              [OpUserFindOne name; OpUserSave user].
Proof.
  intros Ha Hn Hp Hr Hf.
  destruct (accepted_register req Ha) as (Hne & _ & Hrole).
  specialize (Hne name Hn). specialize (Hrole r Hr).
  unfold register. rewrite isEmpty_validationResult_anywhere, Ha. simpl.
  rewrite Hn, Hp, Hr.
  unfold try_catch, User_findOne, bind, emit, read. simpl. rewrite Hf. simpl.
  apply String.eqb_neq in Hne. rewrite Hne.
  assert (E : ((r =? "beekeeper") || ((r =? "admin") || false))%string = true).
  { rewrite orb_false_r, orb_true_iff, !String.eqb_eq. exact Hrole. }
  rewrite E. simpl. unfold User_save, bind, emit, read, write. simpl. rewrite Hf.
  reflexivity.
Qed.

(** The four ways of a registration. *)
Lemma register_cases env req st :
  (accepted register_checks req = false
   /\ register env req st
      = reply (status_json 400
                 (JObj [("errors", JArr (validationResult_anywhere req register_checks))]))
              st)
  \/ (exists name u,
        accepted register_checks req = true
        /\ assoc "username" (body req) = Some name
        /\ find_user name st = Some u
        /\ register env req st
           = mkOutcome (status_json 400 (error_body "Username already exists")) st
                       [OpUserFindOne name])
  \/ (accepted register_checks req = true
      /\ (forall name, assoc "username" (body req) = Some name -> find_user name st = None)
      /\ (assoc "username" (body req) = None \/ as_string req "password" = None
          \/ assoc "role" (body req) = None)
      /\ register env req st
         = mkOutcome (status_json 500 (error_body "Server error")) st (looked_up req))
  \/ (exists name pass r,
        accepted register_checks req = true
        /\ assoc "username" (body req) = Some name
        /\ as_string req "password" = Some pass
        /\ assoc "role" (body req) = Some r
        /\ find_user name st = None
        /\ register env req st
           = mkOutcome
               (status_json 201 (JObj [("message", JStr "User registered successfully")]))
               (mkStore (users st
                         ++ [mkUser (fresh_id env) name (bcrypt_hash pass (salt env)) r])
                        (hives st) (crops st))
               [OpUserFindOne name;
                OpUserSave (mkUser (fresh_id env) name (bcrypt_hash pass (salt env)) r)]).
Proof.
  destruct (accepted register_checks req) eqn:Ha;
    [|left; split; [reflexivity | now apply register_invalid]].
  right.
  destruct (assoc "username" (body req)) as [name|] eqn:Hn.
  - destruct (find_user name st) as [u|] eqn:Hf.
    + left. exists name, u. repeat split; try assumption.
      exact (register_taken _ _ _ _ _ Ha Hn Hf).
    + right.
      destruct (as_string req "password") as [pass|] eqn:Hp.
      * destruct (assoc "role" (body req)) as [r|] eqn:Hr.
        -- right. exists name, pass, r. repeat split; try assumption.
           now apply register_fresh.
        -- left. split; [reflexivity|].
           assert (Hfree : forall n, assoc "username" (body req) = Some n ->
                                     find_user n st = None)
             by (intros n E; rewrite Hn in E; now injection E as <-).
           rewrite Hn in Hfree. split; [exact Hfree|]. split; [tauto|].
           rewrite <- Hn in Hfree. apply register_throws; [exact Ha|exact Hfree|tauto].
      * left. split; [reflexivity|].
        assert (Hfree : forall n, assoc "username" (body req) = Some n ->
                                  find_user n st = None)
          by (intros n E; rewrite Hn in E; now injection E as <-).
        rewrite Hn in Hfree. split; [exact Hfree|]. split; [tauto|].
        rewrite <- Hn in Hfree. apply register_throws; [exact Ha|exact Hfree|tauto].
  - right. left. split; [reflexivity|]. split; [discriminate|]. split; [tauto|].
    apply register_throws; [exact Ha| |tauto]. intros n E. rewrite Hn in E. discriminate E.
Qed.

(** C4, as the code has it, for a request that has the three fields in the
    body alone and the password as a string: registration is refused with
    the validation errors (400) exactly when the username is empty, the
    password has fewer than 6 characters or the role is neither beekeeper
    nor admin; a request that passes validation is refused with "Username
    already exists" (400) exactly when a user of that name is stored; any
    other request is answered 201 with a message and no token, and the user
    is stored with [bcrypt.hash(password, salt)] as password.  A refused
    request leaves the store as it was. *)
Theorem register_outcomes env req st :
  route req = PostRegister ->
  only_in_body register_checks req = true ->
  existsb (String.eqb "password") (numeric req) = false ->
  let name := arg "username" (body req) in
  let pass := arg "password" (body req) in
  let r := arg "role" (body req) in
  let out := handle env req st in
  let invalid :=
    name = "" \/ (String.length pass < 6)%nat \/ (r <> "beekeeper" /\ r <> "admin") in
  let taken := exists u, In u (users st) /\ username u = name in
  (invalid <->
   exists errors, errors <> []
     /\ response out = status_json 400 (JObj [("errors", JArr errors)]))
  /\ (~ invalid ->
      (taken <-> response out = status_json 400 (error_body "Username already exists")))
  /\ (~ invalid -> ~ taken ->
      response out
      = status_json 201 (JObj [("message", JStr "User registered successfully")])
      /\ (forall j, payload (response out) = Json j -> get "token" j = JUndefined)
      /\ store out
         = mkStore (users st ++ [mkUser (fresh_id env) name (bcrypt_hash pass (salt env)) r])
                   (hives st) (crops st))
  /\ (invalid \/ taken -> store out = st).
Proof.
  intros R Hbody Hstr name pass r out invalid taken. subst out.
  rewrite (handle_register _ _ _ R).
  pose proof (accepted_only_in_body _ _ Hbody) as Hacc.
  assert (Hv : valid register_checks (body req) = true <-> ~ invalid).
  { rewrite valid_register. subst invalid name pass r. split.
    - intros (H1 & H2 & H3) [H | [H | [H H']]]; [tauto | lia | destruct H3; tauto].
    - intros H. repeat split.
      + intros E. apply H. now left.
      + destruct (Nat.le_gt_cases 6 (String.length (arg "password" (body req))));
          [assumption|]. exfalso. apply H. right. left. assumption.
      + destruct (string_dec (arg "role" (body req)) "beekeeper"); [now left|].
        destruct (string_dec (arg "role" (body req)) "admin"); [now right|].
        exfalso. apply H. right. right. split; assumption. }
  assert (Ht : (exists u, find_user name st = Some u) <-> taken)
    by apply find_user_some.
  destruct (valid register_checks (body req)) eqn:V.
  - assert (Hok : ~ invalid) by now apply Hv.
    apply valid_register in V as Hfields. destruct Hfields as (Hn & Hp & Hr).
    assert (En : assoc "username" (body req) = Some name).
    { subst name. unfold arg in *. destruct (assoc "username" (body req));
        [reflexivity | now contradiction Hn]. }
    assert (Ep : as_string req "password" = Some pass).
    { subst pass. unfold as_string, arg in *. rewrite Hstr.
      destruct (assoc "password" (body req)); [reflexivity | simpl in Hp; lia]. }
    assert (Er : assoc "role" (body req) = Some r).
    { subst r. unfold arg in *. destruct (assoc "role" (body req));
        [reflexivity | destruct Hr; discriminate]. }
    destruct (find_user name st) as [u|] eqn:Hf.
    + assert (Hin : taken) by (apply Ht; eauto).
      rewrite (register_taken _ _ _ _ _ Hacc En Hf). simpl. repeat split; try tauto.
      intros (errors & _ & E). discriminate E.
    + assert (Hout : ~ taken) by (intros H; apply Ht in H as [u E]; discriminate E).
      rewrite (register_fresh _ _ _ _ _ _ Hacc En Ep Er Hf). simpl.
      repeat split; try tauto.
      * intros (errors & _ & E). discriminate E.
      * intros E. discriminate E.
      * intros j E. injection E as <-. reflexivity.
  - assert (Hbad : invalid).
    { destruct (string_dec name "") as [E|E]; [now left|].
      destruct (Nat.le_gt_cases 6 (String.length pass)) as [L|L]; [|right; now left].
      destruct (string_dec r "beekeeper") as [B|B];
        [|destruct (string_dec r "admin") as [A|A]; [|right; right; now split]];
        assert (valid register_checks (body req) = true)
          by (apply valid_register; subst name pass r; tauto); congruence. }
    rewrite (register_invalid _ _ _ Hacc). simpl. repeat split; try tauto.
    + intros _. exists (validationResult_anywhere req register_checks).
      split; [|reflexivity]. apply not_isEmpty.
      now rewrite isEmpty_validationResult_anywhere.
Qed.

(** *** Sorting *)

Section Sorting.

Context {A : Type} (before : A -> A -> bool).

Lemma insert_by_perm x l : Permutation (insert_by before x l) (x :: l).
Proof.
  induction l as [|y l IH]; simpl; [reflexivity|].
  destruct (before x y); [reflexivity|].
  rewrite IH. apply perm_swap.
Qed.

Lemma sort_by_perm l : Permutation (sort_by before l) l.
Proof.
  induction l as [|x l IH]; simpl; [reflexivity|].
  rewrite insert_by_perm. now constructor.
Qed.

Lemma sort_by_In x l : In x (sort_by before l) <-> In x l.
Proof.
  split; apply Permutation_in; [|symmetry]; apply sort_by_perm.
Qed.

(** The order [R] that the test [before] decides, whichever way it puts two
    elements that [R] relates both ways. *)
Variable R : A -> A -> Prop.
Hypothesis before_true : forall a b, before a b = true -> R a b.
Hypothesis before_false : forall a b, before a b = false -> R b a.

Lemma insert_by_sorted x l : Sorted R l -> Sorted R (insert_by before x l).
Proof.
  induction 1 as [|y l Hs IH Hd]; simpl; [repeat constructor|].
  destruct (before x y) eqn:E.
  - constructor; [now constructor | constructor; now apply before_true].
  - constructor; [exact IH|].
    apply before_false in E.
    destruct Hd as [|z l Hyz]; simpl; [now constructor|].
    destruct (before x z); now constructor.
Qed.

Lemma sort_by_sorted l : Sorted R (sort_by before l).
Proof.
  induction l as [|x l IH]; simpl; [constructor | now apply insert_by_sorted].
Qed.

End Sorting.

Lemma newest_first_sorted (tie : Hive -> Hive -> bool) (l : list Hive) :
  StronglySorted (fun a b => datePlaced b <= datePlaced a)
                 (sort_by (newer_first tie) l).
Proof.
  apply Sorted_StronglySorted.
  - intros a b c Hab Hbc. lia.
  - apply sort_by_sorted; intros a b; unfold newer_first;
      destruct (Z.eqb_spec (datePlaced a) (datePlaced b)); intros H; try lia;
      first [apply Z.ltb_lt in H | apply Z.ltb_ge in H]; lia.
Qed.

(** *** Hive logs *)



Lemma new_Hive_fields env id d la lo n h :
  new_Hive env id d la lo n = Some h ->
  hiveId h = id /\ d = Some (datePlaced h) /\ dateCreated h = t_now env
  /\ hive_id h = fresh_id env.
Proof.
  unfold new_Hive.
  destruct d, (toNumber la), (toNumber lo), (toNumber n); try discriminate.
  intros [= <-]. repeat split.
Qed.

Lemma add_hive_invalid env req st :
  valid hive_checks (body req) = false ->
  add_hive env req st
  = reply (status_json 400
             (JObj [("errors", JArr (validationResult "body" hive_checks (body req)))])) st.
Proof. unfold add_hive. rewrite isEmpty_validationResult. now intros ->. Qed.

Lemma add_hive_duplicate env req st h' :
  valid hive_checks (body req) = true ->
  find_hive (arg "hiveId" (body req)) st = Some h' ->
  add_hive env req st
  = mkOutcome (status_json 400 (error_body "hiveId must be unique")) st
              [OpHiveFindOne (arg "hiveId" (body req))].
Proof.
  unfold add_hive. rewrite isEmpty_validationResult. intros -> Hf. simpl.
  unfold try_catch, Hive_findOne, bind, emit, read. simpl. now rewrite Hf.
Qed.

Lemma add_hive_fresh env req st h :
  valid hive_checks (body req) = true ->
  find_hive (arg "hiveId" (body req)) st = None ->
  new_Hive env (arg "hiveId" (body req)) (Date_parse (arg "datePlaced" (body req)))
    (arg "latitude" (body req)) (arg "longitude" (body req))
    (arg "numColonies" (body req)) = Some h ->
  add_hive env req st
  = mkOutcome (status_json 201 (JObj [("message", JStr "Hive log added successfully");
                                      ("hive", hive_json h)]))
              (mkStore (users st) (hives st ++ [h]) (crops st))
              [OpHiveFindOne (arg "hiveId" (body req)); OpHiveSave h].
Proof.
  unfold add_hive. rewrite isEmpty_validationResult. intros -> Hf Hn. simpl.
  unfold try_catch, Hive_findOne, bind, emit, read. simpl. rewrite Hf, Hn.
  apply new_Hive_fields in Hn as (Hid & _).
  unfold Hive_save, bind, emit, read, write. simpl. rewrite Hid, Hf. reflexivity.
Qed.

Lemma add_hive_uncastable env req st :
  valid hive_checks (body req) = true ->
  find_hive (arg "hiveId" (body req)) st = None ->
  new_Hive env (arg "hiveId" (body req)) (Date_parse (arg "datePlaced" (body req)))
    (arg "latitude" (body req)) (arg "longitude" (body req))
    (arg "numColonies" (body req)) = None ->
  add_hive env req st
  = mkOutcome (status_json 500 (error_body "Server error")) st
              [OpHiveFindOne (arg "hiveId" (body req))].
Proof.
  unfold add_hive. rewrite isEmpty_validationResult. intros -> Hf Hn. simpl.
  unfold try_catch, Hive_findOne, bind, emit, read. simpl. now rewrite Hf, Hn.
Qed.

Lemma page_count_spec count limit :
  1 <= limit ->
  (page_count count limit - 1) * limit < count <= page_count count limit * limit.
Proof.
  intros Hl. unfold page_count.
  set (x := (inject_Z count / inject_Z limit)%Q).
  assert (Hpos : (0 < inject_Z limit)%Q).
  { change (inject_Z 0 < inject_Z limit)%Q. rewrite <- Zlt_Qlt. lia. }
  assert (Hx : (x * inject_Z limit == inject_Z count)%Q).
  { unfold x. rewrite Qmult_comm. apply Qmult_div_r.
    intros E. apply Qlt_not_eq in Hpos. apply Hpos. now symmetry. }
  split.
  - rewrite Zlt_Qlt, inject_Z_mult, <- Hx.
    apply Qmult_lt_compat_r; [exact Hpos | apply Qceiling_lt].
  - rewrite Zle_Qle, inject_Z_mult, <- Hx.
    apply Qmult_le_compat_r; [apply Qle_ceiling | now apply Qlt_le_weak].
Qed.

Lemma list_hives_run env req st :
  let page := int_or (parseInt_of (assoc "page" (query req))) 1 in
  let limit := int_or (parseInt_of (assoc "limit" (query req))) 10 in
  let q := list_query req in
  let matching := filter (matches q) (hives st) in
  castable q = true ->
  0 <= (page - 1) * limit ->
  list_hives env req st
  = mkOutcome
      (res_json
         (JObj [("hives",
                 JArr (map hive_json
                         (limit_to limit
                            (skipn (Z.to_nat ((page - 1) * limit))
                               (sort_by (newer_first (tie env)) matching)))));
                ("total", JNum (inject_Z (Z.of_nat (List.length matching))));
                ("page", JNum (inject_Z page));
                ("pages",
                 JNum (inject_Z (page_count (Z.of_nat (List.length matching)) limit)))]))
      st
      [OpHiveFind q ((page - 1) * limit) limit; OpHiveCount q].
Proof.
  intros page limit q matching Hc Hs. unfold list_hives.
  fold page limit q.
  unfold try_catch, Hive_find, Hive_countDocuments, bind, emit, read, ret.
  rewrite Hc. simpl.
  destruct ((page - 1) * limit <? 0) eqn:E; [apply Z.ltb_lt in E; lia|].
  reflexivity.
Qed.

(** *** Crop entries *)

Lemma at_least_some m x :
  at_least (Some m) x = true -> exists q, x = Some q /\ (m <= q)%Q.
Proof.
  destruct x as [q|]; simpl; [|discriminate].
  intros H. apply Qle_bool_iff in H. eauto.
Qed.

Lemma at_most_some m x :
  at_most (Some m) x = true -> exists q, x = Some q /\ (q <= m)%Q.
Proof.
  destruct x as [q|]; simpl; [|discriminate].
  intros H. apply Qle_bool_iff in H. eauto.
Qed.

Lemma valid_crop fields :
  valid crop_checks fields = true ->
  (exists la, parseFloat (arg "latitude" fields) = Some la
              /\ (-90 # 1 <= la)%Q /\ (la <= 90 # 1)%Q)
  /\ (exists lo, parseFloat (arg "longitude" fields) = Some lo
                 /\ (-180 # 1 <= lo)%Q /\ (lo <= 180 # 1)%Q)
  /\ (exists n, toNumber (arg "recommendedHiveDensity" fields) = Some n /\ (1 <= n)%Q).
Proof.
  unfold valid, crop_checks, chain_ok, arg. simpl.
  rewrite !andb_true_r, !andb_true_iff.
  intros (_ & _ & _ & ((_ & La1) & La2) & ((_ & Lo1) & Lo2) & (_ & N)).
  apply at_least_some in La1 as (la & Ela & Hla).
  apply at_most_some in La2 as (la' & Ela' & Hla').
  apply at_least_some in Lo1 as (lo & Elo & Hlo).
  apply at_most_some in Lo2 as (lo' & Elo' & Hlo').
  apply at_least_some in N as (n & En & Hn).
  rewrite Ela in Ela'. injection Ela' as <-.
  rewrite Elo in Elo'. injection Elo' as <-.
  split; [exists la; auto | split; [exists lo; auto | exists n; auto]].
Qed.

Lemma add_crop_invalid env req st :
  valid crop_checks (body req) = false ->
  add_crop env req st
  = reply (status_json 400
             (JObj [("errors", JArr (validationResult "body" crop_checks (body req)))])) st.
Proof. unfold add_crop. rewrite isEmpty_validationResult. now intros ->. Qed.

Lemma add_crop_rejected env req st :
  valid crop_checks (body req) = true ->
  date_ge (Date_parse (arg "floweringStart" (body req)))
          (Date_parse (arg "floweringEnd" (body req))) = true ->
  add_crop env req st
  = reply (status_json 400 (error_body "floweringStart must be before floweringEnd")) st.
Proof. unfold add_crop. rewrite isEmpty_validationResult. now intros -> ->. Qed.

Lemma add_crop_saved env req st s e la lo n :
  valid crop_checks (body req) = true ->
  Date_parse (arg "floweringStart" (body req)) = Some s ->
  Date_parse (arg "floweringEnd" (body req)) = Some e ->
  s < e ->
  parseFloat (arg "latitude" (body req)) = Some la ->
  parseFloat (arg "longitude" (body req)) = Some lo ->
  toNumber (arg "recommendedHiveDensity" (body req)) = Some n ->
  let crop := mkCrop (fresh_id env) (arg "name" (body req)) s e n
                (mkLocation "Point" [lo; la]) (t_now env) in
  add_crop env req st
  = mkOutcome (status_json 201 (JObj [("message", JStr "Crop entry added successfully");
                                      ("crop", crop_json crop)]))
              (mkStore (users st) (hives st) (crops st ++ [crop]))
              [OpCropSave crop].
Proof.
  unfold add_crop. cbv zeta. rewrite isEmpty_validationResult.
  intros -> -> -> Hlt Hla Hlo Hn. cbn [negb date_ge].
  replace (e <=? s) with false by (symmetry; apply Z.leb_gt; lia).
  unfold new_Crop. rewrite Hn, Hla, Hlo. reflexivity.
Qed.

Lemma add_crop_step env req st : store_step st (store (add_crop env req st)).
Proof.
  destruct (valid crop_checks (body req)) eqn:V;
    [|rewrite (add_crop_invalid _ _ _ V); constructor].
  destruct (date_ge (Date_parse (arg "floweringStart" (body req)))
                    (Date_parse (arg "floweringEnd" (body req)))) eqn:G;
    [rewrite (add_crop_rejected _ _ _ V G); constructor|].
  destruct (valid_crop _ V) as ((la & Hla & _) & (lo & Hlo & _) & (n & Hn & _)).
  destruct (Date_parse (arg "floweringStart" (body req))) as [s|] eqn:Hs.
  - destruct (Date_parse (arg "floweringEnd" (body req))) as [e|] eqn:He.
    + simpl in G. apply Z.leb_gt in G.
      rewrite (add_crop_saved _ _ _ _ _ _ _ _ V Hs He G Hla Hlo Hn). simpl.
      now apply step_crop.
    + unfold add_crop. rewrite isEmpty_validationResult, V, Hs, He. simpl.
      constructor.
  - unfold add_crop. rewrite isEmpty_validationResult, V, Hs. simpl.
    constructor.
Qed.

(** *** One request, one step of the store *)

Lemma register_step env req st : store_step st (store (register env req st)).
Proof.
  destruct (register_cases env req st)
    as [(_ & ->) | [(name & u & _ & _ & _ & ->)
       | [(_ & _ & _ & ->) | (name & pass & r & _ & _ & _ & _ & Hf & ->)]]];
    [constructor | constructor | constructor |].
  simpl. now apply (step_user st (mkUser _ _ _ _)).
Qed.

Lemma add_hive_step env req st : store_step st (store (add_hive env req st)).
Proof.
  destruct (valid hive_checks (body req)) eqn:V;
    [|rewrite (add_hive_invalid _ _ _ V); constructor].
  destruct (find_hive (arg "hiveId" (body req)) st) as [h'|] eqn:Hf.
  - rewrite (add_hive_duplicate _ _ _ _ V Hf). constructor.
  - destruct (new_Hive env (arg "hiveId" (body req))
                (Date_parse (arg "datePlaced" (body req)))
                (arg "latitude" (body req)) (arg "longitude" (body req))
                (arg "numColonies" (body req))) as [h|] eqn:Hn.
    + rewrite (add_hive_fresh _ _ _ _ V Hf Hn). simpl.
      apply step_hive. apply new_Hive_fields in Hn as (-> & _). exact Hf.
    + rewrite (add_hive_uncastable _ _ _ V Hf Hn). constructor.
Qed.

Lemma login_store env req st : store (login env req st) = st.
Proof.
  destruct (login_cases env req st)
    as [(_ & ->) | [(_ & _ & ->)
       | (name & u & _ & _ & _ & [(_ & ->) | [(pass & _ & _ & ->)
                                             | (pass & _ & _ & _ & S & _)]])]];
    try reflexivity.
  exact S.
Qed.

Lemma list_hives_store env req st : store (list_hives env req st) = st.
Proof.
  unfold list_hives, Hive_find, Hive_countDocuments. run_db.
  split_tests; reflexivity.
Qed.

Lemma nearby_crops_store env req st : store (nearby_crops env req st) = st.
Proof.
  unfold nearby_crops, Crop_findNear. run_db. split_tests; reflexivity.
Qed.

Lemma handler_step r env req st : store_step st (store (handler r env req st)).
Proof.
  destruct r; simpl.
  - apply register_step.
  - rewrite login_store. constructor.
  - apply add_hive_step.
  - rewrite list_hives_store. constructor.
  - apply add_crop_step.
  - rewrite nearby_crops_store. constructor.
  - constructor.
  - constructor.
  - constructor.
  - constructor.
Qed.

Lemma handle_step env req st : store_step st (store (handle env req st)).
Proof.
  unfold handle.
  destruct (protected (route req)); [|apply handler_step].
  destruct (authenticateToken env req) as [refused|user]; [constructor|].
  destruct (admin_only (route req)); [|apply handler_step].
  destruct (requireAdmin user); [constructor | apply handler_step].
Qed.




Lemma limit_to_firstn {A : Type} (n : Z) (l : list A) :
  1 <= n -> limit_to n l = firstn (Z.to_nat n) l.
Proof.
  intros H. unfold limit_to. destruct (n =? 0) eqn:E; [apply Z.eqb_eq in E; lia|].
  now rewrite Z.abs_eq by lia.
Qed.



Lemma bound_spec (v : option string) (test : Z -> bool) (P : Z -> Prop) :
  (forall d, test d = true <-> P d) ->
  let b := if truthy v
           then Some (Date_parse (match v with Some s => s | None => "" end))
           else None in
  b <> Some None ->
  (match b with Some (Some d) => test d | _ => true end = true
   <-> (forall s, v = Some s -> s <> "" -> exists d, Date_parse s = Some d /\ P d)).
Proof.
  intros Ht b Hb. subst b. destruct v as [s|]; simpl in *.
  - destruct (String.eqb_spec s "") as [E|E]; simpl in *.
    + split; [|reflexivity]. intros _ s' [= <-] N. contradiction.
    + destruct (Date_parse s) as [d|] eqn:D; [|exfalso; now apply Hb].
      rewrite Ht. split.
      * intros Hd s' [= <-] _. eauto.
      * intros H. destruct (H s eq_refl E) as (d' & D' & Hd).
        rewrite D in D'. now injection D' as <-.
  - split; [|reflexivity]. intros _ s' E. discriminate E.
Qed.

Lemma matches_list_query req h :
  castable (list_query req) = true ->
  matches (list_query req) h = true
  <-> (forall s, assoc "startDate" (query req) = Some s -> s <> "" ->
         exists d, Date_parse s = Some d /\ d <= datePlaced h)
      /\ (forall s, assoc "endDate" (query req) = Some s -> s <> "" ->
            exists d, Date_parse s = Some d /\ datePlaced h <= d).
Proof.
  unfold castable, matches, list_query, arg. simpl. intros Hc.
  rewrite andb_true_iff.
  rewrite (bound_spec (assoc "startDate" (query req))
             (fun d => d <=? datePlaced h) (fun d => d <= datePlaced h)).
  - rewrite (bound_spec (assoc "endDate" (query req))
               (fun d => datePlaced h <=? d) (fun d => datePlaced h <= d)).
    + reflexivity.
    + intros d. apply Z.leb_le.
    + intros E. rewrite E in Hc.
      destruct (if truthy (assoc "startDate" (query req)) then _ else _) as [[|]|];
        discriminate Hc.
  - intros d. apply Z.leb_le.
  - intros E. rewrite E in Hc. discriminate Hc.
Qed.

(** C5: an authenticated listing with page and limit at least 1 (absent,
    they are 1 and 10) and with date bounds that, where supplied, are dates,
    returns the page of the stored hive logs whose datePlaced lies between
    the supplied bounds, inclusive: the matching records sorted by
    datePlaced descending, without the first (page - 1) * limit of them and
    cut after limit; with the number of matching records as total and the
    least number of pages that holds them as pages. *)
Theorem list_hives_page env req st user page limit :
  route req = GetHives ->
  authenticateToken env req = inr user ->
  page = int_or (parseInt_of (assoc "page" (query req))) 1 ->
  limit = int_or (parseInt_of (assoc "limit" (query req))) 10 ->
  1 <= page -> 1 <= limit ->
  castable (list_query req) = true ->
  let matching := filter (matches (list_query req)) (hives st) in
  let total := Z.of_nat (List.length matching) in
  exists sorted pages,
    Permutation sorted matching
    /\ StronglySorted (fun a b => datePlaced b <= datePlaced a) sorted
    /\ (pages - 1) * limit < total <= pages * limit
    /\ handle env req st
       = mkOutcome
           (res_json
              (JObj [("hives",
                      JArr (map hive_json
                              (firstn (Z.to_nat limit)
                                 (skipn (Z.to_nat ((page - 1) * limit)) sorted))));
                     ("total", JNum (inject_Z total));
                     ("page", JNum (inject_Z page));
                     ("pages", JNum (inject_Z pages))]))
           st
           [OpHiveFind (list_query req) ((page - 1) * limit) limit;
            OpHiveCount (list_query req)]
    /\ (forall h,
          In h matching
          <-> In h (hives st)
              /\ (forall s, assoc "startDate" (query req) = Some s -> s <> "" ->
                    exists d, Date_parse s = Some d /\ d <= datePlaced h)
              /\ (forall s, assoc "endDate" (query req) = Some s -> s <> "" ->
                    exists d, Date_parse s = Some d /\ datePlaced h <= d))
    /\ (assoc "page" (query req) = None -> page = 1)
    /\ (assoc "limit" (query req) = None -> limit = 10).
Proof.
  intros R A Hpage Hlimit Hp Hl Hc matching total.
  exists (sort_by (newer_first (tie env)) matching), (page_count total limit).
  split; [apply sort_by_perm|].
  split; [apply newest_first_sorted|].
  split; [now apply page_count_spec|].
  split; [|split; [|split]].
  - rewrite (handle_authenticated env req st user) by (rewrite ?R; auto).
    rewrite R. simpl handler. rewrite list_hives_run; rewrite <- ?Hpage, <- ?Hlimit.
    + now rewrite limit_to_firstn.
    + exact Hc.
    + nia.
  - intros h. unfold matching. rewrite filter_In.
    rewrite (matches_list_query req h Hc). tauto.
  - intros E. rewrite Hpage, E. reflexivity.
  - intros E. rewrite Hlimit, E. reflexivity.
Qed.


(** *** Nearby crops *)

Lemma valid_nearby fields :
  valid nearby_checks fields = true ->
  (exists la, parseFloat_of (assoc "latitude" fields) = Some la)
  /\ (exists lo, parseFloat_of (assoc "longitude" fields) = Some lo)
  /\ (forall s, assoc "radius" fields = Some s ->
        float_syntax s = true /\ exists r, parseFloat s = Some r /\ (1 <= r)%Q)
  /\ (forall s, assoc "date" fields = Some s -> isISO8601 s = true).
Proof.
  unfold valid, nearby_checks, chain_ok. simpl.
  rewrite !andb_true_r, !andb_true_iff.
  intros ((Ela & (_ & La) & _) & (Elo & (_ & Lo) & _) & Hr & Hd).
  destruct (assoc "latitude" fields) as [sla|]; [|discriminate].
  destruct (assoc "longitude" fields) as [slo|]; [|discriminate].
  apply at_least_some in La as (la & Hla & _).
  apply at_least_some in Lo as (lo & Hlo & _).
  split; [eauto|]. split; [eauto|]. split.
  - intros s E. rewrite E in Hr. simpl in Hr.
    rewrite !andb_true_r, andb_true_iff in Hr. destruct Hr as (Hsyn & Hr).
    apply at_least_some in Hr. auto.
  - intros s E. rewrite E in Hd. simpl in Hd. now rewrite andb_true_r in Hd.
Qed.

Lemma nearby_crops_invalid env req st :
  valid nearby_checks (query req) = false ->
  nearby_crops env req st
  = reply (status_json 400
             (JObj [("errors", JArr (validationResult "query" nearby_checks (query req)))]))
          st.
Proof. unfold nearby_crops. rewrite isEmpty_validationResult. now intros ->. Qed.

Lemma nearby_crops_run env req st la lo date :
  valid nearby_checks (query req) = true ->
  parseFloat_of (assoc "latitude" (query req)) = Some la ->
  parseFloat_of (assoc "longitude" (query req)) = Some lo ->
  (if truthy (assoc "date" (query req)) then Date_parse (arg "date" (query req))
   else Some (t_now env)) = Some date ->
  let radius := num_or (parseFloat_of (assoc "radius" (query req))) (100 # 1) in
  let maxDistance := (radius * (1000 # 1))%Q in
  nearby_crops env req st
  = mkOutcome
      (nearby_response
         (sort_by (nearer [lo; la])
            (filter (fun c => within [lo; la] maxDistance c && in_bloom date c)
               (crops st))))
      st [OpCropFindNear [lo; la] maxDistance date].
Proof.
  unfold nearby_crops. cbv zeta. rewrite isEmpty_validationResult.
  intros -> -> -> ->. cbn [negb]. unfold Crop_findNear. cbn [numbers].
  unfold try_catch, bind, emit, read, ret. cbn [app].
  unfold nearby_response.
  destruct (sort_by _ _); reflexivity.
Qed.

Lemma within_km (d r : Q) : (d <= r * (1000 # 1) <-> d / (1000 # 1) <= r)%Q.
Proof.
  split; intros H.
  - apply Qle_shift_div_r; [reflexivity | exact H].
  - assert (E : (d / (1000 # 1) * (1000 # 1) == d)%Q).
    { rewrite Qmult_comm. apply Qmult_div_r. discriminate. }
    rewrite <- E. apply Qmult_le_compat_r; [exact H | discriminate].
Qed.

Lemma nearby_response_crops found :
  status (nearby_response found) = 200
  /\ get "crops" (body_json (nearby_response found)) = JArr (map crop_json found).
Proof. destruct found; split; reflexivity. Qed.

Lemma radius_effective fields radius :
  valid nearby_checks fields = true ->
  match assoc "radius" fields with
  | Some s => parseFloat s = Some radius
  | None => radius = (100 # 1)%Q
  end ->
  num_or (parseFloat_of (assoc "radius" fields)) (100 # 1) = radius.
Proof.
  intros V Hr. destruct (valid_nearby _ V) as (_ & _ & Hrad & _).
  destruct (assoc "radius" fields) as [s|]; simpl; [|now subst].
  destruct (Hrad s eq_refl) as (_ & r & Er & Hle).
  rewrite Hr in Er. injection Er as <-. rewrite Hr. simpl.
  destruct (Qeq_bool radius 0) eqn:Z0; [|reflexivity].
  apply Qeq_bool_iff in Z0. rewrite Z0 in Hle. exfalso. apply Hle. reflexivity.
Qed.

(** C1: an authenticated nearby query whose parameters pass the validators
    (and whose date, when supplied, is a date) is answered 200 with, under
    [crops], exactly the stored entries whose location lies within [radius]
    kilometres of (latitude, longitude) by the spherical distance and whose
    flowering window contains the date, both ends included; the radius is
    the supplied one or 100, the date the supplied one or the clock.  An
    empty result is a 200 as well, and the store is unchanged. *)
Theorem findNearby_exact env req st user lat lon radius date :
  route req = GetCropsNearby ->
  authenticateToken env req = inr user ->
  valid nearby_checks (query req) = true ->
  parseFloat_of (assoc "latitude" (query req)) = Some lat ->
  parseFloat_of (assoc "longitude" (query req)) = Some lon ->
  match assoc "radius" (query req) with
  | Some s => parseFloat s = Some radius
  | None => radius = (100 # 1)%Q
  end ->
  (if truthy (assoc "date" (query req)) then Date_parse (arg "date" (query req))
   else Some (t_now env)) = Some date ->
  let out := handle env req st in
  exists found,
    status (response out) = 200
    /\ get "crops" (body_json (response out)) = JArr (map crop_json found)
    /\ (forall c,
          In c found
          <-> In c (crops st)
              /\ (sphere_dist (coordinates (location c)) [lon; lat] / (1000 # 1)
                  <= radius)%Q
              /\ floweringStart c <= date <= floweringEnd c)
    /\ store out = st.
Proof.
  intros R A V Hla Hlo Hr Hd out. subst out.
  rewrite (handle_authenticated env req st user) by (rewrite ?R; auto).
  rewrite R. simpl handler.
  rewrite (nearby_crops_run _ _ _ _ _ _ V Hla Hlo Hd).
  rewrite (radius_effective _ _ V Hr).
  eexists. split; [|split; [|split; [|reflexivity]]].
  - apply nearby_response_crops.
  - apply nearby_response_crops.
  - intros c. rewrite sort_by_In, filter_In. unfold within, in_bloom.
    rewrite !andb_true_iff, Qle_bool_iff, !Z.leb_le, within_km. tauto.
Qed.

(** C9: on GET /api/crops/nearby, for an authenticated request, a supplied
    radius that is not a number at least 1 is answered 400 with the
    validation errors, no store operation being issued and the store being
    left as it was; when the radius is absent and the other parameters are
    valid, the one query issued has a maximal distance of 100 * 1000
    metres. *)
Theorem nearby_radius_validated env req st user :
  route req = GetCropsNearby ->
  authenticateToken env req = inr user ->
  let out := handle env req st in
  (forall s,
     assoc "radius" (query req) = Some s ->
     ~ (float_syntax s = true /\ exists r, parseFloat s = Some r /\ (1 <= r)%Q) ->
     (exists errors,
        errors <> []
        /\ response out = status_json 400 (JObj [("errors", JArr errors)]))
     /\ ops out = [] /\ store out = st)
  /\ (assoc "radius" (query req) = None ->
      valid nearby_checks (query req) = true ->
      forall lat lon date,
        parseFloat_of (assoc "latitude" (query req)) = Some lat ->
        parseFloat_of (assoc "longitude" (query req)) = Some lon ->
        (if truthy (assoc "date" (query req)) then Date_parse (arg "date" (query req))
         else Some (t_now env)) = Some date ->
        ops out = [OpCropFindNear [lon; lat] ((100 # 1) * (1000 # 1))%Q date]).
Proof.
  intros R A out. subst out.
  rewrite (handle_authenticated env req st user) by (rewrite ?R; auto).
  rewrite R. simpl handler. split.
  - intros s E Hbad.
    assert (V : valid nearby_checks (query req) = false).
    { destruct (valid nearby_checks (query req)) eqn:V; [|reflexivity].
      exfalso. apply Hbad. now apply (valid_nearby _ V). }
    rewrite (nearby_crops_invalid _ _ _ V). simpl. split; [|split; reflexivity].
    exists (validationResult "query" nearby_checks (query req)).
    split; [|reflexivity].
    apply not_isEmpty. now rewrite isEmpty_validationResult.
  - intros E V lat lon date Hla Hlo Hd.
    rewrite (nearby_crops_run _ _ _ _ _ _ V Hla Hlo Hd). simpl. now rewrite E.
Qed.

(** *** CSV export *)



End Properties.

(** ** Further properties *)

Section Further.

Context {lib : Lib}.

(** *** The effect of one request *)

Lemma login_effect env req st :
  status (response (login env req st)) <> 201 /\ store (login env req st) = st.
Proof.
  split; [|apply login_store].
  destruct (login_cases env req st)
    as [(_ & ->) | [(_ & _ & ->)
       | (name & u & _ & _ & _ & [(_ & ->) | [(pass & _ & _ & ->)
                                             | (pass & _ & _ & -> & _)]])]];
    discriminate.
Qed.

Lemma list_hives_effect env req st :
  status (response (list_hives env req st)) <> 201 /\ store (list_hives env req st) = st.
Proof.
  unfold list_hives, Hive_find, Hive_countDocuments. run_db.
  split_tests; split; (discriminate || reflexivity).
Qed.

Lemma nearby_crops_effect env req st :
  status (response (nearby_crops env req st)) <> 201
  /\ store (nearby_crops env req st) = st.
Proof.
  unfold nearby_crops, Crop_findNear. run_db.
  split_tests; split; (discriminate || reflexivity).
Qed.

Lemma handler_effect r env req st :
  route req = r -> effect env req st (handler r env req st).
Proof.
  intros R. destruct r; simpl.
  - destruct (register_cases env req st)
      as [(_ & ->) | [(name & u & _ & _ & _ & ->)
         | [(_ & _ & _ & ->) | (name & pass & r & Ha & Hn & Hp & Hr & Hf & ->)]]];
      [now constructor | now constructor | now constructor |].
    now apply (effect_user _ _ _ _ name pass r).
  - destruct (login_effect env req st). now constructor.
  - destruct (valid hive_checks (body req)) eqn:V;
      [|rewrite (add_hive_invalid _ _ _ V); now constructor].
    destruct (find_hive (arg "hiveId" (body req)) st) as [h'|] eqn:Hf;
      [rewrite (add_hive_duplicate _ _ _ _ V Hf); now constructor|].
    destruct (new_Hive env (arg "hiveId" (body req))
                (Date_parse (arg "datePlaced" (body req)))
                (arg "latitude" (body req)) (arg "longitude" (body req))
                (arg "numColonies" (body req))) as [h|] eqn:Hn.
    + rewrite (add_hive_fresh _ _ _ _ V Hf Hn). now apply (effect_hive _ _ _ _ h).
    + rewrite (add_hive_uncastable _ _ _ V Hf Hn). now constructor.
  - destruct (list_hives_effect env req st). now constructor.
  - destruct (valid crop_checks (body req)) eqn:V;
      [|rewrite (add_crop_invalid _ _ _ V); now constructor].
    destruct (date_ge (Date_parse (arg "floweringStart" (body req)))
                      (Date_parse (arg "floweringEnd" (body req)))) eqn:G;
      [rewrite (add_crop_rejected _ _ _ V G); now constructor|].
    destruct (valid_crop _ V) as ((la & Hla & _) & (lo & Hlo & _) & (n & Hn & _)).
    destruct (Date_parse (arg "floweringStart" (body req))) as [s|] eqn:Hs.
    + destruct (Date_parse (arg "floweringEnd" (body req))) as [e|] eqn:He.
      * simpl in G. apply Z.leb_gt in G.
        rewrite (add_crop_saved _ _ _ _ _ _ _ _ V Hs He G Hla Hlo Hn).
        now apply (effect_crop _ _ _ _ s e la lo n).
      * unfold add_crop. rewrite isEmpty_validationResult, V, Hs, He. simpl.
        now constructor.
    + unfold add_crop. rewrite isEmpty_validationResult, V, Hs. simpl.
      now constructor.
  - destruct (nearby_crops_effect env req st). now constructor.
  - now constructor.
  - now constructor.
  - now constructor.
  - now constructor.
Qed.

Lemma handle_effect env req st : effect env req st (handle env req st).
Proof.
  unfold handle.
  destruct (protected (route req)); [|now apply handler_effect].
  destruct (authenticateToken env req) as [refused|user] eqn:A.
  - unfold authenticateToken in A.
    destruct (negb (truthy (bearer (authorization req))));
      [injection A as <-; now constructor|].
    destruct (jwt_verify _ _ _); [injection A as <-; now constructor | discriminate A].
  - destruct (admin_only (route req)); [|now apply handler_effect].
    unfold requireAdmin. destruct (negb (is_admin user));
      [now constructor | now apply handler_effect].
Qed.

(** X1: a request changes the store only when it is answered 201, and then
    it appends exactly one record: a user on POST /auth/register, a hive log
    on POST /api/hives, a crop entry on POST /api/crops.  Every other route,
    and every request answered otherwise, leaves the store as it was. *)
Theorem store_changes_only_on_201 env req st :
  let out := handle env req st in
  (status (response out) <> 201 -> store out = st)
  /\ (status (response out) = 201 ->
      (route req = PostRegister
       /\ exists u, store out = mkStore (users st ++ [u]) (hives st) (crops st))
      \/ (route req = PostHives
          /\ exists h, store out = mkStore (users st) (hives st ++ [h]) (crops st))
      \/ (route req = PostCrops
          /\ exists c, store out = mkStore (users st) (hives st) (crops st ++ [c])))
  /\ (route req <> PostRegister -> route req <> PostHives -> route req <> PostCrops ->
      store out = st).
Proof.
  intros out. subst out.
  destruct (handle_effect env req st) as [N S|name pass r R _ _ _ _ _ E S|h R _ _ _ E S|s e la lo n R _ _ _ _ _ _ _ E S].
  - repeat split; [auto | intros E; contradiction | auto].
  - split; [intros N; contradiction|]. split; [|intros N; contradiction].
    intros _. left. eauto.
  - split; [intros N; contradiction|]. split; [|intros _ N; contradiction].
    intros _. right. left. eauto.
  - split; [intros N; contradiction|]. split; [|intros _ _ N; contradiction].
    intros _. right. right. eauto.
Qed.

(** X2: what is answered 500 on the two open routes.  A login is answered
    500 exactly when it passes validation, a user of the body's username is
    stored and the body's password is not a string, [bcrypt.compare]
    throwing on it; a registration exactly when it passes validation, no
    user of the body's username is stored and the body lacks the username,
    the role or a password that is a string, [bcrypt.hash] or [save]
    throwing then. *)
Theorem login_and_register_server_errors env req st :
  (route req = PostLogin ->
   (status (response (handle env req st)) = 500
    <-> accepted login_checks req = true
        /\ as_string req "password" = None
        /\ exists name u,
             assoc "username" (body req) = Some name /\ find_user name st = Some u))
  /\ (route req = PostRegister ->
      (status (response (handle env req st)) = 500
       <-> accepted register_checks req = true
           /\ (forall name,
                 assoc "username" (body req) = Some name -> find_user name st = None)
           /\ (assoc "username" (body req) = None \/ as_string req "password" = None
               \/ assoc "role" (body req) = None))).
Proof.
  split; intros R.
  - rewrite (handle_login _ _ _ R).
    destruct (login_cases env req st)
      as [(Ha & ->) | [(Ha & Hfree & ->)
         | (name & u & Ha & Hn & Hf & [(Hp & ->) | [(pass & Hp & Hc & ->)
                                                   | (pass & Hp & Hc & E & _)]])]];
      unfold reply; cbn [response status status_json]; split.
    + discriminate.
    + intros (Ha' & _). congruence.
    + discriminate.
    + intros (_ & _ & n & v & Hn & Hf). rewrite (Hfree n Hn) in Hf. discriminate Hf.
    + intros _. split; [exact Ha|]. split; [exact Hp|]. now exists name, u.
    + reflexivity.
    + discriminate.
    + intros (_ & Hp' & _). congruence.
    + rewrite E. discriminate.
    + intros (_ & Hp' & _). congruence.
  - rewrite (handle_register _ _ _ R).
    destruct (register_cases env req st)
      as [(Ha & ->) | [(name & u & Ha & Hn & Hf & ->)
         | [(Ha & Hfree & Hmiss & ->) | (name & pass & r & Ha & Hn & Hp & Hr & Hf & ->)]]];
      unfold reply; cbn [response status status_json]; split.
    + discriminate.
    + intros (Ha' & _). congruence.
    + discriminate.
    + intros (_ & Hfree & _). rewrite (Hfree name Hn) in Hf. discriminate Hf.
    + intros _. auto.
    + reflexivity.
    + discriminate.
    + intros (_ & _ & [H | [H | H]]); congruence.
Qed.

(** *** Stores reached from the empty one *)

Lemma run_invariant (P : Store -> Prop) :
  (forall env req st, P st -> P (store (handle env req st))) ->
  forall steps st, P st -> P (run steps st).
Proof.
  intros Hstep steps. induction steps as [|[env req] rest IH]; simpl; intros st H;
    [exact H | apply IH, Hstep, H].
Qed.

Lemma valid_hive fields :
  valid hive_checks fields = true ->
  arg "hiveId" fields <> ""
  /\ exists n, toNumber (arg "numColonies" fields) = Some n /\ (1 # 1 <= n)%Q.
Proof.
  unfold valid, hive_checks, chain_ok. cbn -[at_least at_most].
  fold (arg "hiveId" fields) (arg "numColonies" fields).
  rewrite !andb_true_r, !andb_true_iff, negb_true_iff, String.eqb_neq.
  intros (H & _ & _ & _ & (_ & N)). split; [exact H|].
  now apply at_least_some in N.
Qed.

Lemma valid_crop_name fields :
  valid crop_checks fields = true -> arg "name" fields <> "".
Proof.
  unfold valid, crop_checks, chain_ok. cbn -[at_least at_most].
  fold (arg "name" fields).
  rewrite !andb_true_r, !andb_true_iff, negb_true_iff, String.eqb_neq. tauto.
Qed.

Lemma Forall_snoc {A : Type} (P : A -> Prop) (l : list A) (x : A) :
  Forall P l -> P x -> Forall P (l ++ [x]).
Proof. intros Hl Hx. apply Forall_app. split; [exact Hl | now constructor]. Qed.

(** X3: in every store reached from the empty one, by whatever requests, no
    two users have the same username. *)
Theorem reachable_usernames_unique steps : unique_usernames (run steps empty_store).
Proof.
  apply (run_invariant unique_usernames); [|constructor].
  unfold unique_usernames. intros env req st U.
  destruct (handle_step env req st) as [|u Hf|h _|c _]; simpl; try exact U.
  rewrite map_app. apply NoDup_app; [exact U | repeat constructor; intros [] |].
  intros id Hin [<-|[]]. apply in_map_iff in Hin as (u' & Heq & Hin).
  exact (proj1 (find_user_none _ _) Hf u' Hin Heq).
Qed.

(** X4: in every store reached from the empty one, every user has a
    non-empty username, the role beekeeper or admin, and as password the
    bcrypt hash of a password of at least 6 characters. *)
Theorem reachable_users_well_formed steps :
  Forall well_formed_user (users (run steps empty_store)).
Proof.
  apply (run_invariant (fun st => Forall well_formed_user (users st))); [|constructor].
  intros env req st W.
  destruct (handle_effect env req st) as [_ ->|name pass r _ Ha Hn Hp Hr _ _ ->|h _ _ _ _ _ ->|s e la lo n _ _ _ _ _ _ _ _ _ ->];
    simpl; try exact W.
  apply Forall_snoc; [exact W|].
  destruct (accepted_register req Ha) as (Hname & Hpass & Hrole).
  split; [exact (Hname name Hn)|]. split; [exact (Hrole r Hr)|]. simpl.
  exists pass, (salt env). split; [|reflexivity].
  exact (Hpass pass (as_string_body _ _ _ Hp)).
Qed.

(** X5: in every store reached from the empty one, every hive log has a
    non-empty hiveId and at least one colony. *)
Theorem reachable_hives_well_formed steps :
  Forall well_formed_hive (hives (run steps empty_store)).
Proof.
  apply (run_invariant (fun st => Forall well_formed_hive (hives st))); [|constructor].
  intros env req st W.
  destruct (handle_effect env req st) as [_ ->|name pass r _ _ _ _ _ _ _ ->|h _ V _ Hn _ ->|s e la lo n _ _ _ _ _ _ _ _ _ ->];
    simpl; try exact W.
  apply Forall_snoc; [exact W|].
  apply valid_hive in V as (Hid & k & Hk & Hle).
  unfold new_Hive in Hn. rewrite Hk in Hn.
  destruct (Date_parse _); [|discriminate Hn].
  destruct (toNumber (arg "latitude" _)); [|discriminate Hn].
  destruct (toNumber (arg "longitude" _)); [|discriminate Hn].
  injection Hn as <-. split; [exact Hid | exact Hle].
Qed.

(** X6: in every store reached from the empty one, every crop entry has a
    non-empty name, a location of type Point with the two coordinates
    longitude in [-180, 180] and latitude in [-90, 90], in this order, a
    recommended hive density of at least 1 and floweringStart before
    floweringEnd. *)
Theorem reachable_crops_well_formed steps :
  Forall well_formed_crop (crops (run steps empty_store)).
Proof.
  apply (run_invariant (fun st => Forall well_formed_crop (crops st))); [|constructor].
  intros env req st W.
  destruct (handle_effect env req st) as [_ ->|name pass r _ _ _ _ _ _ _ ->|h _ _ _ _ _ ->|s e la lo n _ V _ _ Hlt Hla Hlo Hn _ ->];
    simpl; try exact W.
  apply Forall_snoc; [exact W|].
  pose proof (valid_crop_name _ V) as Hname.
  destruct (valid_crop _ V)
    as ((la' & Ela & La1 & La2) & (lo' & Elo & Lo1 & Lo2) & (n' & En & Hn')).
  rewrite Hla in Ela. injection Ela as <-.
  rewrite Hlo in Elo. injection Elo as <-.
  rewrite Hn in En. injection En as <-.
  split; [exact Hname|]. split; [|split; [exact Hn' | exact Hlt]].
  exists lo, la. simpl. auto.
Qed.

(** *** The same request twice *)

Lemma find_appended {A : Type} (p : A -> bool) (l : list A) (x : A) :
  find p l = None -> p x = true -> find p (l ++ [x]) = Some x.
Proof.
  induction l as [|y l IH]; simpl; intros Hn Hx; [now rewrite Hx|].
  destruct (p y); [discriminate Hn | now apply IH].
Qed.

(** X7: a hive-add request answered 201 is answered 400 "hiveId must be
    unique" when it is sent again, and the second request stores nothing. *)
Theorem hive_added_twice env env' req st user' :
  route req = PostHives ->
  authenticateToken env' req = inr user' ->
  status (response (handle env req st)) = 201 ->
  handle env' req (store (handle env req st))
  = mkOutcome (status_json 400 (error_body "hiveId must be unique"))
              (store (handle env req st))
              [OpHiveFindOne (arg "hiveId" (body req))].
Proof.
  intros R A E.
  destruct (handle_effect env req st) as [N _|name pass r R' _ _ _ _ _ _ _|h _ V Hf Hn _ S|s e la lo n R' _ _ _ _ _ _ _ _ _];
    [contradiction | congruence | | congruence].
  rewrite S. rewrite (handle_authenticated env' req _ user') by (rewrite ?R; auto).
  rewrite R. simpl handler.
  apply (add_hive_duplicate _ _ _ h V).
  unfold find_hive. simpl. apply find_appended; [exact Hf|].
  apply new_Hive_fields in Hn as (-> & _). apply String.eqb_refl.
Qed.

(** X8: a registration answered 201 is answered 400 "Username already
    exists" when it is sent again, and the second request stores nothing. *)
Theorem registered_twice env env' req st :
  route req = PostRegister ->
  status (response (handle env req st)) = 201 ->
  handle env' req (store (handle env req st))
  = mkOutcome (status_json 400 (error_body "Username already exists"))
              (store (handle env req st))
              [OpUserFindOne (arg "username" (body req))].
Proof.
  intros R E.
  destruct (handle_effect env req st) as [N _|name pass r _ Ha Hn _ _ Hf _ S|h R' _ _ _ _ _|s e la lo n R' _ _ _ _ _ _ _ _ _];
    [contradiction | | congruence | congruence].
  rewrite S, (handle_register _ _ _ R).
  unfold arg. rewrite Hn.
  apply (register_taken _ _ _ _ (mkUser (fresh_id env) name (bcrypt_hash pass (salt env)) r)
           Ha Hn).
  unfold find_user. simpl. apply find_appended; [exact Hf|]. apply String.eqb_refl.
Qed.

(** *** Registering, logging in, presenting the token *)

Lemma find_user_appended name st u :
  find_user name st = None -> username u = name ->
  find_user name (mkStore (users st ++ [u]) (hives st) (crops st)) = Some u.
Proof.
  intros Hf E. unfold find_user. simpl. apply find_appended; [exact Hf|].
  now apply String.eqb_eq.
Qed.

(** X9: after a registration answered 201, a login that passes validation
    and has the same username and the same password, a string, in its body
    is answered 200 with a token whose claims carry the id, the username
    and the role that were registered, provided [bcrypt.compare] accepts
    the password against the hash [bcrypt.hash] made of it. *)
Theorem register_then_login env env' req req' st :
  route req = PostRegister ->
  status (response (handle env req st)) = 201 ->
  route req' = PostLogin ->
  accepted login_checks req' = true ->
  assoc "username" (body req') = assoc "username" (body req) ->
  as_string req' "password" = as_string req "password" ->
  bcrypt_compare (arg "password" (body req))
    (bcrypt_hash (arg "password" (body req)) (salt env)) = true ->
  let iat := t_sign env' / 1000 in
  let claims :=
    JObj [("id", JStr (fresh_id env));
          ("username", JStr (arg "username" (body req)));
          ("role", JStr (arg "role" (body req)));
          ("syncToken", JNum (inject_Z (t_now env')));
          ("iat", JNum (inject_Z iat));
          ("exp", JNum (inject_Z (iat + 3600)))] in
  response (handle env' req' (store (handle env req st)))
  = res_json (JObj [("token", JStr (jws_sign claims (JWT_SECRET env')));
                    ("syncToken", JNum (inject_Z (t_now env')))]).
Proof.
  intros R E R' V' Hu Hp Hc iat claims. subst iat claims.
  destruct (handle_effect env req st) as [N _|name pass r _ _ Hn Hs Hr Hf _ S|h Rh _ _ _ _ _|s e la lo n Rc _ _ _ _ _ _ _ _ _];
    [contradiction | | congruence | congruence].
  rewrite S, (handle_login _ _ _ R').
  rewrite Hn in Hu. rewrite Hs in Hp. revert Hc.
  unfold arg. rewrite (as_string_body _ _ _ Hs), Hn, Hr. intros Hc.
  rewrite (login_match env' req' _ name pass
             (mkUser (fresh_id env) name (bcrypt_hash pass (salt env)) r) V' Hu).
  - reflexivity.
  - now apply find_user_appended.
  - exact Hp.
  - exact Hc.
Qed.

Lemma split_on_word c a b :
  mentions c a = false -> split_on c (a ++ String c b)%string = a :: split_on c b.
Proof.
  induction a as [|x a IH]; simpl; intros H.
  - now rewrite Ascii.eqb_refl.
  - apply orb_false_iff in H as [Hx Ha]. rewrite Hx, (IH Ha). reflexivity.
Qed.

Lemma split_on_one_word c a : mentions c a = false -> split_on c a = [a].
Proof.
  induction a as [|x a IH]; simpl; intros H; [reflexivity|].
  apply orb_false_iff in H as [Hx Ha]. rewrite Hx, (IH Ha). reflexivity.
Qed.

Lemma bearer_second_word scheme rest :
  mentions " " scheme = false ->
  bearer (Some (scheme ++ String " " rest)%string)
  = nth_error (split_on " " rest) 0.
Proof.
  intros H. unfold bearer.
  destruct (String.eqb_spec (scheme ++ String " " rest)%string "") as [E|_].
  - destruct scheme; discriminate E.
  - now rewrite split_on_word.
Qed.

Lemma bearer_token token :
  mentions " " token = false -> bearer (Some ("Bearer " ++ token)%string) = Some token.
Proof.
  intros H. change ("Bearer " ++ token)%string with ("Bearer" ++ String " " token)%string.
  rewrite bearer_second_word by reflexivity. now rewrite split_on_one_word.
Qed.

Lemma Qle_bool_inject (a b : Z) : Qle_bool (inject_Z a) (inject_Z b) = (a <=? b).
Proof.
  destruct (a <=? b) eqn:E.
  - apply Qle_bool_iff. rewrite <- Zle_Qle. now apply Z.leb_le.
  - destruct (Qle_bool (inject_Z a) (inject_Z b)) eqn:F; [|reflexivity].
    apply Qle_bool_iff in F. rewrite <- Zle_Qle in F. apply Z.leb_gt in E. lia.
Qed.

(** X10: the token of a successful login is accepted on every protected
    route, yielding the claims that were signed, as long as the clock in
    seconds is before [iat + 3600], and is answered 403 "Invalid token" from
    then on; provided the token decodes under the secret to the claims that
    were signed and has no space in it. *)
Theorem issued_token_lifetime env req st name pass u env' req' :
  route req = PostLogin ->
  accepted login_checks req = true ->
  assoc "username" (body req) = Some name ->
  find_user name st = Some u ->
  as_string req "password" = Some pass ->
  bcrypt_compare pass (password u) = true ->
  let iat := t_sign env / 1000 in
  let claims :=
    JObj [("id", JStr (user_id u));
          ("username", JStr (username u));
          ("role", JStr (role u));
          ("syncToken", JNum (inject_Z (t_now env)));
          ("iat", JNum (inject_Z iat));
          ("exp", JNum (inject_Z (iat + 3600)))] in
  let token := jws_sign claims (JWT_SECRET env) in
  jws_verify token (JWT_SECRET env) = JwsPayload claims ->
  token <> "" ->
  mentions " " token = false ->
  JWT_SECRET env' = JWT_SECRET env ->
  protected (route req') = true ->
  authorization req' = Some ("Bearer " ++ token)%string ->
  get "token" (body_json (response (handle env req st))) = JStr token
  /\ (t_verify env' / 1000 < iat + 3600 -> authenticateToken env' req' = inr claims)
  /\ (iat + 3600 <= t_verify env' / 1000 ->
      forall st',
        handle env' req' st'
        = mkOutcome (status_json 403 (error_body "Invalid token")) st' []).
Proof.
  intros R V Hn Hf Hp Hc iat claims token Hv Hne Hsp Hs P A.
  assert (Hb : bearer (authorization req') = Some token)
    by (rewrite A; now apply bearer_token).
  assert (Ht : truthy (Some token) = true)
    by (simpl; apply negb_true_iff; now apply String.eqb_neq).
  assert (Hjwt : jwt_verify token (JWT_SECRET env') (t_verify env')
                 = if iat + 3600 <=? t_verify env' / 1000
                   then VerifyError TokenExpired else Verified claims).
  { unfold jwt_verify. rewrite Hs, Hv. subst claims. cbn [get assoc String.eqb Ascii.eqb Bool.eqb].
    now rewrite Qle_bool_inject. }
  split; [|split].
  - rewrite (handle_login _ _ _ R), (login_match _ _ _ _ _ _ V Hn Hf Hp Hc). reflexivity.
  - intros Hlt. unfold authenticateToken. rewrite Hb, Ht, Hjwt. simpl.
    destruct (iat + 3600 <=? t_verify env' / 1000) eqn:E;
      [apply Z.leb_le in E; lia | reflexivity].
  - intros Hle st'. apply handle_refused; [exact P|].
    unfold authenticateToken. rewrite Hb, Ht, Hjwt. simpl.
    destruct (iat + 3600 <=? t_verify env' / 1000) eqn:E;
      [reflexivity | apply Z.leb_gt in E; lia].
Qed.

(** X11: on a protected route, an Authorization header of one word (one
    without a space, such as the bare token) is answered 401 "Access token
    required". *)
Theorem one_word_header_refused env req st h :
  protected (route req) = true ->
  authorization req = Some h ->
  mentions " " h = false ->
  handle env req st
  = mkOutcome (status_json 401 (error_body "Access token required")) st [].
Proof.
  intros P A H. apply handle_refused; [exact P|].
  unfold authenticateToken, bearer. rewrite A.
  destruct (String.eqb h ""); [reflexivity|].
  now rewrite split_on_one_word.
Qed.

(** X12: the word before the token is not looked at: two requests that
    differ only in the first word of the Authorization header are answered
    alike. *)
Theorem scheme_word_ignored env rt b q h n st scheme1 scheme2 rest :
  mentions " " scheme1 = false ->
  mentions " " scheme2 = false ->
  handle env (mkRequest rt (Some (scheme1 ++ String " " rest)%string) b q h n) st
  = handle env (mkRequest rt (Some (scheme2 ++ String " " rest)%string) b q h n) st.
Proof.
  intros H1 H2. unfold handle, authenticateToken. cbn [authorization route].
  rewrite (bearer_second_word _ rest H1), (bearer_second_word _ rest H2).
  destruct rt; reflexivity.
Qed.

(** *** Administrators *)

(** X13: on /export/hives, /export/crops and /admin, a request whose token
    is valid but whose role claim is not "admin" is answered 403 "Admin
    access required"; nothing is read from the store. *)
Theorem non_admin_refused env req st user :
  admin_only (route req) = true ->
  authenticateToken env req = inr user ->
  is_admin user = false ->
  handle env req st
  = mkOutcome (status_json 403 (error_body "Admin access required")) st [].
Proof.
  intros Ha A Hu. unfold handle. rewrite A, Ha. unfold requireAdmin. rewrite Hu.
  destruct (route req); try discriminate Ha; reflexivity.
Qed.

(** X14: for an administrator, /export/hives answers 200 with the
    attachment hive_logs.csv, whose columns are hiveId, datePlaced,
    latitude, longitude, numColonies, dateCreated and whose rows are the
    stored hive logs, in the order of the store, without their _id. *)
Theorem export_hives_table env req st user :
  route req = GetExportHives ->
  authenticateToken env req = inr user ->
  is_admin user = true ->
  handle env req st
  = mkOutcome
      (mkResponse 200
         (Csv "hive_logs.csv"
            (mkTable ["hiveId"; "datePlaced"; "latitude"; "longitude"; "numColonies";
                      "dateCreated"]
                     (map (fun h => [JStr (hiveId h); JDate (datePlaced h);
                                     JNum (latitude h); JNum (longitude h);
                                     JNum (numColonies h); JDate (dateCreated h)])
                          (hives st)))))
      st [OpHiveFindAll].
Proof.
  intros R A Hu.
  rewrite (handle_admin env req st user) by (rewrite ?R; auto).
  rewrite R. simpl handler.
  unfold export_hives, Hive_findAll, parse. run_db. now rewrite map_map.
Qed.

(** *** Validation comes first *)

Lemma refused_status env req refused :
  authenticateToken env req = inl refused -> status refused = 401 \/ status refused = 403.
Proof.
  unfold authenticateToken.
  destruct (negb (truthy (bearer (authorization req)))); [intros [= <-]; now left|].
  destruct (jwt_verify _ _ _); [intros [= <-]; now right | discriminate].
Qed.

(** X15: a request that fails a validator of its route issues no store
    operation and leaves the store as it was; it is answered 400 with the
    list of errors, or 401 or 403 when the route is protected and the token
    is refused.  For register and login, the validator fails at one of the
    places where [check] finds the field: body, headers or query string;
    for add hive and add crop, the request has the checked fields in the
    body alone, and a validator fails there; for nearby crops, whose chains
    are built with [query], a validator fails on the query string. *)
Theorem invalid_request_never_reaches_store env req st :
  (route req = PostRegister /\ accepted register_checks req = false)
  \/ (route req = PostLogin /\ accepted login_checks req = false)
  \/ (route req = PostHives
      /\ only_in_body hive_checks req = true /\ valid hive_checks (body req) = false)
  \/ (route req = PostCrops
      /\ only_in_body crop_checks req = true /\ valid crop_checks (body req) = false)
  \/ (route req = GetCropsNearby /\ valid nearby_checks (query req) = false) ->
  let out := handle env req st in
  ops out = [] /\ store out = st
  /\ (status (response out) = 400 \/ status (response out) = 401
      \/ status (response out) = 403)
  /\ (protected (route req) = false \/ (exists user, authenticateToken env req = inr user) ->
      exists errors,
        errors <> [] /\ response out = status_json 400 (JObj [("errors", JArr errors)])).
Proof.
  intros H out. subst out.
  assert (Hh : exists errors,
             errors <> []
             /\ handler (route req) env req st
                = reply (status_json 400 (JObj [("errors", JArr errors)])) st).
  { destruct H as [[R V]|[[R V]|[(R & _ & V)|[(R & _ & V)|[R V]]]]]; rewrite R;
      simpl handler;
      eexists; (split; [|first [apply (register_invalid _ _ _ V)
                               | apply (login_invalid _ _ _ V)
                               | apply (add_hive_invalid _ _ _ V)
                               | apply (add_crop_invalid _ _ _ V)
                               | apply (nearby_crops_invalid _ _ _ V)]]);
      apply not_isEmpty;
      first [now rewrite isEmpty_validationResult_anywhere
            | now rewrite isEmpty_validationResult]. }
  destruct Hh as (errors & Hne & Hh).
  assert (Hadm : admin_only (route req) = false)
    by (destruct H as [[R _]|[[R _]|[[R _]|[[R _]|[R _]]]]]; now rewrite R).
  unfold handle. rewrite Hadm.
  destruct (protected (route req)) eqn:P.
  - destruct (authenticateToken env req) as [refused|user] eqn:A.
    + simpl. repeat split; auto.
      * destruct (refused_status _ _ _ A); auto.
      * intros [F|(user & F)]; discriminate F.
    + rewrite Hh. simpl. repeat split; auto. intros _. eauto.
  - rewrite Hh. simpl. repeat split; auto. intros _. eauto.
Qed.

(** *** Paging through the hive logs *)

Lemma firstn_plus {A : Type} (a b : nat) (l : list A) :
  firstn (a + b) l = firstn a l ++ firstn b (skipn a l).
Proof.
  revert l. induction a as [|a IH]; intros l; [reflexivity|].
  destruct l as [|x l]; simpl; [now rewrite firstn_nil | now rewrite IH].
Qed.

Lemma chunks_cover {A : Type} (n m : nat) (l : list A) :
  List.concat (map (fun k => firstn n (skipn (k * n) l)) (seq 0 m)) = firstn (m * n) l.
Proof.
  induction m as [|m IH]; [reflexivity|].
  rewrite seq_S, map_app, concat_app, IH. simpl.
  rewrite app_nil_r, (Nat.add_comm n (m * n)). symmetry. apply firstn_plus.
Qed.

Lemma list_hives_items env req st :
  castable (list_query req) = true ->
  1 <= int_or (parseInt_of (assoc "page" (query req))) 1 ->
  1 <= int_or (parseInt_of (assoc "limit" (query req))) 10 ->
  items (get "hives" (body_json (response (list_hives env req st))))
  = map hive_json
      (firstn (Z.to_nat (int_or (parseInt_of (assoc "limit" (query req))) 10))
         (skipn (Z.to_nat (int_or (parseInt_of (assoc "page" (query req))) 1 - 1)
                 * Z.to_nat (int_or (parseInt_of (assoc "limit" (query req))) 10))
            (sort_by (newer_first (tie env)) (filter (matches (list_query req)) (hives st))))).
Proof.
  intros Hc Hp Hl.
  pose proof (list_hives_run env req st) as Hrun. cbv zeta in Hrun.
  rewrite Hrun; [|exact Hc|nia]. simpl.
  rewrite limit_to_firstn by exact Hl.
  now rewrite Z2Nat.inj_mul by lia.
Qed.

Lemma insert_by_agree {A : Type} (before before' : A -> A -> bool) (x : A) (l : list A) :
  (forall y, In y l -> before x y = before' x y) ->
  insert_by before x l = insert_by before' x l.
Proof.
  induction l as [|y l IH]; simpl; intros H; [reflexivity|].
  rewrite <- (H y (or_introl eq_refl)).
  destruct (before x y); [reflexivity|]. f_equal. apply IH. intros z Hz. apply H. now right.
Qed.

(** Hive logs of distinct datePlaced are listed in one order, whatever the
    order of ties. *)
Lemma sort_by_distinct_dates (tie tie' : Hive -> Hive -> bool) (l : list Hive) :
  NoDup (map datePlaced l) ->
  sort_by (newer_first tie) l = sort_by (newer_first tie') l.
Proof.
  induction l as [|x l IH]; simpl; intros N; [reflexivity|].
  apply NoDup_cons_iff in N as [Hx N]. rewrite (IH N).
  apply insert_by_agree. intros y Hy. apply sort_by_In in Hy.
  unfold newer_first. destruct (Z.eqb_spec (datePlaced x) (datePlaced y)) as [E|_];
    [|reflexivity].
  exfalso. apply Hx. rewrite E. now apply in_map.
Qed.

(** X16: with a limit of at least 1, date bounds that are dates and no two
    matching hive logs of the same datePlaced, the pages 1 to pages of a
    listing, one after the other, are the matching hive logs sorted by
    datePlaced descending, each once: nothing is left out and nothing comes
    twice, the store being the same for all pages.  Each page is asked for
    by a request of its own, served in its own environment, so that no
    order of hive logs of equal datePlaced is carried from one page to the
    next. *)
Theorem pages_cover_the_listing (env_of : Z -> Env) st user (req_of : Z -> Request)
  q limit :
  1 <= limit ->
  castable q = true ->
  NoDup (map datePlaced (filter (matches q) (hives st))) ->
  let pages := page_count (Z.of_nat (List.length (filter (matches q) (hives st)))) limit in
  (forall k, 1 <= k <= pages ->
     route (req_of k) = GetHives
     /\ authenticateToken (env_of k) (req_of k) = inr user
     /\ list_query (req_of k) = q
     /\ int_or (parseInt_of (assoc "limit" (query (req_of k)))) 10 = limit
     /\ int_or (parseInt_of (assoc "page" (query (req_of k)))) 1 = k) ->
  exists sorted,
    Permutation sorted (filter (matches q) (hives st))
    /\ StronglySorted (fun a b => datePlaced b <= datePlaced a) sorted
    /\ List.concat
         (map (fun k =>
                 items (get "hives"
                          (body_json (response (handle (env_of (Z.of_nat k))
                                                  (req_of (Z.of_nat k)) st)))))
              (seq 1 (Z.to_nat pages)))
       = map hive_json sorted.
Proof.
  intros Hl Hc Hd pages Hreq.
  set (sorted := sort_by (newer_first (fun _ _ => true)) (filter (matches q) (hives st))).
  exists sorted. split; [apply sort_by_perm|]. split; [apply newest_first_sorted|].
  set (n := Z.to_nat limit).
  rewrite (map_ext_in _
             (fun k => map hive_json (firstn n (skipn ((k - 1) * n) sorted)))).
  - rewrite <- seq_shift, map_map.
    rewrite (map_ext _ (fun j => map hive_json (firstn n (skipn (j * n) sorted))))
      by (intros j; simpl; now rewrite Nat.sub_0_r).
    rewrite <- (map_map (fun j => firstn n (skipn (j * n) sorted)) (map hive_json)).
    rewrite <- concat_map, chunks_cover. f_equal. apply firstn_all2.
    unfold sorted. rewrite (Permutation_length (sort_by_perm _ _)).
    pose proof (page_count_spec
                  (Z.of_nat (List.length (filter (matches q) (hives st)))) limit Hl)
      as [_ Hle].
    fold pages in Hle. unfold n. nia.
  - intros k Hk. apply in_seq in Hk.
    destruct (Hreq (Z.of_nat k)) as (R & A & Hq & Hlim & Hpage); [lia|].
    rewrite (handle_authenticated (env_of (Z.of_nat k)) _ st user) by (rewrite ?R; auto).
    rewrite R. simpl handler.
    rewrite list_hives_items; rewrite ?Hq, ?Hlim, ?Hpage; try assumption; [|lia].
    rewrite (sort_by_distinct_dates (tie (env_of (Z.of_nat k))) (fun _ _ => true) _ Hd).
    unfold sorted, n. repeat f_equal. lia.
Qed.

(** X17: a page past the last one is not an error: it is answered 200 with
    an empty list of hives, and the same total and pages. *)
Theorem page_past_the_end_is_empty env req st user page limit :
  route req = GetHives ->
  authenticateToken env req = inr user ->
  page = int_or (parseInt_of (assoc "page" (query req))) 1 ->
  limit = int_or (parseInt_of (assoc "limit" (query req))) 10 ->
  1 <= limit ->
  castable (list_query req) = true ->
  let total := Z.of_nat (List.length (filter (matches (list_query req)) (hives st))) in
  page_count total limit < page ->
  response (handle env req st)
  = res_json (JObj [("hives", JArr []);
                    ("total", JNum (inject_Z total));
                    ("page", JNum (inject_Z page));
                    ("pages", JNum (inject_Z (page_count total limit)))]).
Proof.
  intros R A Hp Hl Hlim Hc total Hpast.
  rewrite (handle_authenticated env req st user) by (rewrite ?R; auto).
  rewrite R. simpl handler.
  pose proof (page_count_spec total limit Hlim) as [_ Hle].
  pose proof (list_hives_run env req st) as Hrun. cbv zeta in Hrun.
  rewrite <- Hp, <- Hl in Hrun. rewrite Hrun; [|exact Hc|nia]. simpl.
  rewrite skipn_all2; [now rewrite limit_to_firstn, firstn_nil|].
  rewrite (Permutation_length (sort_by_perm (newer_first (tie env)) _)).
  fold total. nia.
Qed.

(** *** A crop entry and the search that follows *)


End Further.

(** ** The properties on concrete requests *)

#[local] Existing Instance Sample.lib.

Example readme_session_statuses :
  map status (fst (Sample.serve Sample.readme_session empty_store))
  = [201; 200; 201; 400; 201; 200; 200].
Proof. vm_compute. reflexivity. Qed.

Example readme_session_store :
  let final := snd (Sample.serve Sample.readme_session empty_store) in
  map username (users final) = ["bee1"]
  /\ map hiveId (hives final) = ["HIVE004"]
  /\ map (fun c => coordinates (location c)) (crops final)
     = [[757873 # 10000; 67281 # 2500]%Q].
Proof. vm_compute. repeat split. Qed.

Example readme_session_crops :
  map (fun r => get "crops" (body_json r))
      (skipn 5 (fst (Sample.serve Sample.readme_session empty_store)))
  = [JArr [crop_json (mkCrop "id-9" "Sunflower" 1744243200000 1745539200000 (5 # 1)
                        (mkLocation "Point" [757873 # 10000; 67281 # 2500]%Q)
                        1744700000000)];
     JArr []].
Proof. vm_compute. reflexivity. Qed.

Example split_bearer : split_on " " "Bearer abc.def" = ["Bearer"; "abc.def"].
Proof. reflexivity. Qed.

Example one_hour : ms "1h" = Some 3600000.
Proof. reflexivity. Qed.

(** The nearby query of the README, 50 km around (26.9, 75.8) on 2025-04-15. *)
Lemma findNearby_exact_witness :
  exists found,
    status (response (handle Sample.env (Sample.nearby_request (Some "50") "2025-04-15")
                        Sample.stocked)) = 200
    /\ get "crops"
         (body_json (response (handle Sample.env
                                 (Sample.nearby_request (Some "50") "2025-04-15")
                                 Sample.stocked)))
       = JArr (map crop_json found)
    /\ (forall c,
          In c found
          <-> In c (crops Sample.stocked)
              /\ (sphere_dist (coordinates (location c)) [379 # 5; 269 # 10] / (1000 # 1)
                  <= 50 # 1)%Q
              /\ floweringStart c <= 1744675200000 <= floweringEnd c)
    /\ store (handle Sample.env (Sample.nearby_request (Some "50") "2025-04-15")
                Sample.stocked) = Sample.stocked.
Proof.
  apply (findNearby_exact Sample.env (Sample.nearby_request (Some "50") "2025-04-15")
           Sample.stocked (Sample.claims_of "bee1" "beekeeper"));
    reflexivity.
Defined.

(** A login of bee1 with the right password. *)
Lemma login_issues_token_witness :
  keys (body_json (response (handle Sample.env (Sample.login_request "bee1" "password123")
                               Sample.stocked)))
  = ["token"; "syncToken"].
Proof.
  pose proof (login_issues_token Sample.env (Sample.login_request "bee1" "password123")
                Sample.stocked) as H.
  by_evaluation H. destruct H as [H _].
  specialize (H "bee1" "password123" Sample.bee1). by_evaluation H. destruct H as [E _].
  rewrite E. reflexivity.
Defined.

(** C2, as stated, fails: the body of a successful login has no key
    [issuedSyncToken]; its keys are [token] and [syncToken]. *)
Lemma login_body_without_issuedSyncToken :
  let out := handle Sample.env (Sample.login_request "bee1" "password123") Sample.stocked in
  status (response out) = 200
  /\ keys (body_json (response out)) <> ["token"; "issuedSyncToken"]
  /\ get "issuedSyncToken" (body_json (response out)) = JUndefined.
Proof.
  vm_compute. split; [reflexivity|]. split; [discriminate | reflexivity].
Qed.


(** A registration under a new name stores the hash, not the password. *)
Lemma register_outcomes_witness :
  users (store (handle Sample.env (Sample.register_request "bee2" "password123" "admin")
                  Sample.stocked))
  = [Sample.bee1; mkUser "id-9" "bee2" (bcrypt_hash "password123" "salt") "admin"].
Proof.
  pose proof (register_outcomes Sample.env
                (Sample.register_request "bee2" "password123" "admin") Sample.stocked) as H.
  by_evaluation H. destruct H as (_ & _ & H & _).
  destruct H as (_ & _ & Hs).
  - intros [E | [L | [_ E]]]; [discriminate E | simpl in L; lia | now apply E].
  - intros (u & [<-|[]] & E). discriminate E.
  - now rewrite Hs.
Defined.

(** A listing without parameters: page 1 of 10 records. *)
Lemma list_hives_page_witness :
  get "total" (body_json (response (handle Sample.env Sample.list_request Sample.stocked)))
  = JNum (inject_Z 1).
Proof.
  pose proof (list_hives_page Sample.env Sample.list_request Sample.stocked
                (Sample.claims_of "bee1" "beekeeper") 1 10) as H.
  by_evaluation H. destruct H as (sorted & pages & _ & _ & _ & E & _).
  rewrite E. reflexivity.
Defined.


(** C7: the two failures of a login are not always answered alike.  bee1
    is stored and ghost is not.  With a password that is a string, both
    logins are answered 400 "Invalid credentials".  With the password as a
    JSON number, which passes validation, [bcrypt.compare] throws, and it
    is called only once the user is found: the login of bee1 is answered
    500 "Server error", that of ghost 400 "Invalid credentials", so the
    answer tells whether the username exists. *)
Theorem login_number_password_reveals_username :
  let known := Sample.login_request "bee1" "1234567" in
  let unknown := Sample.login_request "ghost" "1234567" in
  find_user "bee1" Sample.stocked = Some Sample.bee1
  /\ find_user "ghost" Sample.stocked = None
  /\ response (handle Sample.env known Sample.stocked)
     = status_json 400 (error_body "Invalid credentials")
  /\ response (handle Sample.env unknown Sample.stocked)
     = status_json 400 (error_body "Invalid credentials")
  /\ accepted login_checks (Sample.number_password known) = true
  /\ accepted login_checks (Sample.number_password unknown) = true
  /\ handle Sample.env (Sample.number_password known) Sample.stocked
     = mkOutcome (status_json 500 (error_body "Server error")) Sample.stocked
                 [OpUserFindOne "bee1"]
  /\ handle Sample.env (Sample.number_password unknown) Sample.stocked
     = mkOutcome (status_json 400 (error_body "Invalid credentials")) Sample.stocked
                 [OpUserFindOne "ghost"].
Proof. vm_compute. repeat split. Qed.

(** C4, as stated, fails.  A registration under the stored name bee1 with a
    password of three characters is refused with the validation errors,
    not with "Username already exists": the username is looked up only
    after validation.  A registration under a new name whose password is
    the JSON number 1234567 passes validation, its rendering having seven
    characters, and is answered 500, [bcrypt.hash] throwing on a number.
    A registration with the body [{}] and its three fields in the query
    string passes validation too, and is answered 500 with the body's
    username undefined.  None of the three stores a user. *)
Lemma register_refusals_beyond_the_claim :
  let short := Sample.register_request "bee1" "abc" "beekeeper" in
  let number :=
    Sample.number_password (Sample.register_request "bee2" "1234567" "beekeeper") in
  let elsewhere :=
    Sample.in_query (Sample.register_request "bee2" "password123" "beekeeper") in
  (find_user "bee1" Sample.stocked = Some Sample.bee1
   /\ keys (body_json (response (handle Sample.env short Sample.stocked))) = ["errors"]
   /\ ops (handle Sample.env short Sample.stocked) = [])
  /\ (accepted register_checks number = true
      /\ handle Sample.env number Sample.stocked
         = mkOutcome (status_json 500 (error_body "Server error")) Sample.stocked
                     [OpUserFindOne "bee2"])
  /\ (accepted register_checks elsewhere = true
      /\ assoc "username" (body elsewhere) = None
      /\ handle Sample.env elsewhere Sample.stocked
         = mkOutcome (status_json 500 (error_body "Server error")) Sample.stocked
                     [OpUserFindUndefined]).
Proof. vm_compute. repeat split. Qed.


(** The radii 0.5 and 0 are refused; without a radius, 100 km are searched. *)
Lemma nearby_radius_validated_witness :
  ops (handle Sample.env (Sample.nearby_request (Some "0.5") "2025-04-15") Sample.stocked)
  = []
  /\ status (response (handle Sample.env (Sample.nearby_request (Some "0") "2025-04-15")
                         Sample.stocked)) = 400
  /\ ops (handle Sample.env (Sample.nearby_request None "2025-04-15") Sample.stocked)
     = [OpCropFindNear [379 # 5; 269 # 10] ((100 # 1) * (1000 # 1))%Q 1744675200000].
Proof.
  split; [|split].
  - pose proof (nearby_radius_validated Sample.env
                  (Sample.nearby_request (Some "0.5") "2025-04-15") Sample.stocked
                  (Sample.claims_of "bee1" "beekeeper")) as H.
    by_evaluation H. destruct H as [H _].
    destruct (H "0.5" eq_refl) as (_ & Hops & _); [|exact Hops].
    intros (_ & r & E & Hle). vm_compute in E. injection E as <-.
    apply Hle. reflexivity.
  - pose proof (nearby_radius_validated Sample.env
                  (Sample.nearby_request (Some "0") "2025-04-15") Sample.stocked
                  (Sample.claims_of "bee1" "beekeeper")) as H.
    by_evaluation H. destruct H as [H _].
    destruct (H "0" eq_refl) as ((errors & _ & E) & _); [|now rewrite E].
    intros (_ & r & E & Hle). vm_compute in E. injection E as <-.
    apply Hle. reflexivity.
  - pose proof (nearby_radius_validated Sample.env
                  (Sample.nearby_request None "2025-04-15") Sample.stocked
                  (Sample.claims_of "bee1" "beekeeper")) as H.
    by_evaluation H. destruct H as [_ H].
    apply H; reflexivity.
Defined.

(** No token, a token signed with another secret, an expired token. *)
Lemma authenticateToken_guards_protected_witness :
  handle Sample.env (Sample.request GetHives None [] []) Sample.stocked
  = mkOutcome (status_json 401 (error_body "Access token required")) Sample.stocked []
  /\ handle Sample.env (Sample.request PostCrops (Some "forged.bee1.admin.late") [] [])
       Sample.stocked
     = mkOutcome (status_json 403 (error_body "Invalid token")) Sample.stocked []
  /\ handle Sample.env (Sample.request GetExportHives (Some "s3cret.root.admin.early") [] [])
       Sample.stocked
     = mkOutcome (status_json 403 (error_body "Invalid token")) Sample.stocked [].
Proof.
  split; [|split].
  - pose proof (authenticateToken_guards_protected Sample.env
                  (Sample.request GetHives None [] []) Sample.stocked) as H.
    by_evaluation H. destruct H as [H _]. apply H. reflexivity.
  - pose proof (authenticateToken_guards_protected Sample.env
                  (Sample.request PostCrops (Some "forged.bee1.admin.late") [] [])
                  Sample.stocked) as H.
    by_evaluation H. destruct H as [_ H].
    apply (H "forged.bee1.admin.late");
      [reflexivity | discriminate | right; left; reflexivity].
  - pose proof (authenticateToken_guards_protected Sample.env
                  (Sample.request GetExportHives (Some "s3cret.root.admin.early") [] [])
                  Sample.stocked) as H.
    by_evaluation H. destruct H as [_ H].
    apply (H "s3cret.root.admin.early"); [reflexivity | discriminate |].
    right; right. exists (JObj [("username", JStr "root"); ("role", JStr "admin");
                                ("exp", JNum (1000 # 1))]), (1000 # 1)%Q.
    split; [reflexivity|]. split; [reflexivity|]. vm_compute. discriminate.
Defined.

(** ** The further properties on concrete requests *)

(** bee1 logs in with the JSON number 1234567 as password. *)
Lemma login_and_register_server_errors_witness :
  status (response (handle Sample.env
                      (Sample.number_password (Sample.login_request "bee1" "1234567"))
                      Sample.stocked))
  = 500.
Proof.
  pose proof (login_and_register_server_errors Sample.env
                (Sample.number_password (Sample.login_request "bee1" "1234567"))
                Sample.stocked) as [H _].
  apply (H eq_refl). split; [reflexivity|]. split; [reflexivity|].
  exists "bee1", Sample.bee1. split; reflexivity.
Defined.

(** HIVE005 sent twice. *)
Lemma hive_added_twice_witness :
  response (handle Sample.env Sample.hive_request
              (store (handle Sample.env Sample.hive_request Sample.stocked)))
  = status_json 400 (error_body "hiveId must be unique").
Proof.
  pose proof (hive_added_twice Sample.env Sample.env Sample.hive_request Sample.stocked
                (Sample.claims_of "bee1" "beekeeper")) as H.
  by_evaluation H. now rewrite H.
Defined.

(** bee2 registered twice. *)
Lemma registered_twice_witness :
  response (handle Sample.env (Sample.register_request "bee2" "password123" "admin")
              (store (handle Sample.env
                        (Sample.register_request "bee2" "password123" "admin")
                        Sample.stocked)))
  = status_json 400 (error_body "Username already exists").
Proof.
  pose proof (registered_twice Sample.env Sample.env
                (Sample.register_request "bee2" "password123" "admin")
                Sample.stocked) as H.
  by_evaluation H. now rewrite H.
Defined.

(** bee2 registers as admin, then logs in. *)
Lemma register_then_login_witness :
  status (response (handle Sample.env (Sample.login_request "bee2" "password123")
                      (store (handle Sample.env
                                (Sample.register_request "bee2" "password123" "admin")
                                Sample.stocked))))
  = 200.
Proof.
  pose proof (register_then_login Sample.env Sample.env
                (Sample.register_request "bee2" "password123" "admin")
                (Sample.login_request "bee2" "password123") Sample.stocked) as H.
  by_evaluation H. cbv zeta in H. now rewrite H.
Defined.

(** The token bee1 is given at 1744700000 s, presented at once and an hour
    later. *)
Lemma issued_token_lifetime_witness :
  let token := "s3cret.id-1.bee1.beekeeper.1744700000000.1744700000.1744703600" in
  get "token"
    (body_json (response (handle (lib := Wire.lib) Sample.env
                            (Sample.login_request "bee1" "password123") Sample.stocked)))
  = JStr token
  /\ (exists claims,
        authenticateToken (lib := Wire.lib) Sample.env
          (Sample.request GetHives (Some token) [] []) = inr claims
        /\ get "username" claims = JStr "bee1")
  /\ handle (lib := Wire.lib)
       (mkEnv "s3cret" 1744703600000 1744703600000 1744703600000 "salt" "id-9"
                       (fun _ _ => true))
       (Sample.request GetHives (Some token) [] []) Sample.stocked
     = mkOutcome (status_json 403 (error_body "Invalid token")) Sample.stocked [].
Proof.
  intros token.
  pose proof (issued_token_lifetime (lib := Wire.lib) Sample.env
                (Sample.login_request "bee1" "password123") Sample.stocked
                "bee1" "password123" Sample.bee1
                Sample.env (Sample.request GetHives (Some token) [] [])) as H.
  by_evaluation H. cbv zeta in H. by_evaluation H.
  assert (Hne : jws_sign (Lib := Wire.lib)
                  (JObj [("id", JStr (user_id Sample.bee1));
                         ("username", JStr (username Sample.bee1));
                         ("role", JStr (role Sample.bee1));
                         ("syncToken", JNum (inject_Z (t_now Sample.env)));
                         ("iat", JNum (inject_Z (t_sign Sample.env / 1000)));
                         ("exp", JNum (inject_Z (t_sign Sample.env / 1000 + 3600)))])
                  (JWT_SECRET Sample.env) <> "")
    by (vm_compute; discriminate).
  specialize (H Hne). by_evaluation H. destruct H as (Ht & Hok & _).
  pose proof (issued_token_lifetime (lib := Wire.lib) Sample.env
                (Sample.login_request "bee1" "password123") Sample.stocked
                "bee1" "password123" Sample.bee1
                (mkEnv "s3cret" 1744703600000 1744703600000 1744703600000 "salt" "id-9"
                       (fun _ _ => true))
                (Sample.request GetHives (Some token) [] [])) as H'.
  by_evaluation H'. cbv zeta in H'. by_evaluation H'.
  specialize (H' Hne). by_evaluation H'. destruct H' as (_ & _ & Hlate).
  split; [exact Ht|]. split.
  - eexists. split; [apply Hok; vm_compute; reflexivity | reflexivity].
  - apply Hlate. vm_compute. discriminate.
Defined.

(** The token alone, without the word Bearer. *)
Lemma one_word_header_refused_witness :
  status (response (handle Sample.env
                      (mkRequest GetSync (Some Sample.bee_token) [] [] [] []) Sample.stocked))
  = 401.
Proof.
  pose proof (one_word_header_refused Sample.env
                (mkRequest GetSync (Some Sample.bee_token) [] [] [] []) Sample.stocked
                Sample.bee_token) as H.
  by_evaluation H. now rewrite H.
Defined.

(** Basic in place of Bearer. *)
Lemma scheme_word_ignored_witness :
  handle Sample.env
    (mkRequest GetSync (Some ("Basic " ++ Sample.bee_token)%string) [] [] [] []) Sample.stocked
  = handle Sample.env
      (mkRequest GetSync (Some ("Bearer " ++ Sample.bee_token)%string) [] [] [] [])
      Sample.stocked.
Proof.
  apply (scheme_word_ignored Sample.env GetSync [] [] [] [] Sample.stocked "Basic" "Bearer"
           Sample.bee_token); reflexivity.
Defined.

(** A beekeeper asks for the admin page. *)
Lemma non_admin_refused_witness :
  status (response (handle Sample.env (Sample.request GetAdmin (Some Sample.bee_token) [] [])
                      Sample.stocked))
  = 403.
Proof.
  pose proof (non_admin_refused Sample.env
                (Sample.request GetAdmin (Some Sample.bee_token) [] []) Sample.stocked
                (Sample.claims_of "bee1" "beekeeper")) as H.
  by_evaluation H. now rewrite H.
Defined.

(** The export of the one hive log HIVE004. *)
Lemma export_hives_table_witness :
  response (handle Sample.env (Sample.request GetExportHives (Some Sample.admin_token) [] [])
              Sample.stocked)
  = mkResponse 200
      (Csv "hive_logs.csv"
         (mkTable ["hiveId"; "datePlaced"; "latitude"; "longitude"; "numColonies";
                   "dateCreated"]
                  [[JStr "HIVE004"; JDate 1744070400000; JNum (287041 # 10000);
                    JNum (771025 # 10000); JNum (5 # 1); JDate 1744700000000]])).
Proof.
  pose proof (export_hives_table Sample.env
                (Sample.request GetExportHives (Some Sample.admin_token) [] [])
                Sample.stocked (Sample.claims_of "root" "admin")) as H.
  by_evaluation H. now rewrite H.
Defined.

(** A registration with a password of three characters. *)
Lemma invalid_request_never_reaches_store_witness :
  ops (handle Sample.env (Sample.register_request "bee3" "abc" "beekeeper") Sample.stocked)
  = []
  /\ store (handle Sample.env (Sample.register_request "bee3" "abc" "beekeeper")
              Sample.stocked)
     = Sample.stocked.
Proof.
  pose proof (invalid_request_never_reaches_store Sample.env
                (Sample.register_request "bee3" "abc" "beekeeper") Sample.stocked) as H.
  destruct H as (Ho & Hs & _); [left; split; reflexivity|].
  split; assumption.
Defined.

(** Two hive logs of different dates listed one to the page, the two pages
    served with different orders of ties. *)
Lemma pages_cover_the_listing_witness :
  let st := mkStore [Sample.bee1] [Sample.hive4; Sample.hive5] [] in
  let env_of := fun k : Z =>
    mkEnv "s3cret" 1744700000000 1744700000000 1744700000123 "salt" "id-9"
          (fun _ _ => k =? 1) in
  let req_of := fun k : Z =>
    Sample.request GetHives (Some Sample.bee_token) []
      [("page", if k =? 1 then "1" else "2"); ("limit", "1")] in
  exists sorted,
    Permutation sorted [Sample.hive4; Sample.hive5]
    /\ StronglySorted (fun a b => datePlaced b <= datePlaced a) sorted
    /\ List.concat
         (map (fun k =>
                 items (get "hives"
                          (body_json (response (handle (env_of (Z.of_nat k))
                                                  (req_of (Z.of_nat k)) st)))))
              (seq 1 2))
       = map hive_json sorted.
Proof.
  intros st env_of req_of.
  apply (pages_cover_the_listing env_of st (Sample.claims_of "bee1" "beekeeper")
           req_of (mkDateQuery None None) 1).
  - lia.
  - reflexivity.
  - repeat constructor; simpl; intros H; repeat destruct H as [H|H]; try discriminate H;
      exact H.
  - intros k Hk. change (1 <= k <= 2) in Hk.
    assert (E : k = 1 \/ k = 2) by lia.
    destruct E as [-> | ->]; repeat split; reflexivity.
Defined.

(** Page 5 of a listing of one record. *)
Lemma page_past_the_end_is_empty_witness :
  get "hives"
    (body_json (response (handle Sample.env
                            (Sample.request GetHives (Some Sample.bee_token) []
                               [("page", "5")])
                            Sample.stocked)))
  = JArr [].
Proof.
  pose proof (page_past_the_end_is_empty Sample.env
                (Sample.request GetHives (Some Sample.bee_token) [] [("page", "5")])
                Sample.stocked (Sample.claims_of "bee1" "beekeeper") 5 10) as H.
  by_evaluation H. cbv zeta in H. by_evaluation H. now rewrite H.
Defined.

